(** * Fitting/constraint_eqs.py: CalculiX node, boundary and equation blocks

    A shallow embedding of the script [Fitting/constraint_eqs.py] and the
    properties of its five functions.

    - A Python [str] is a [string]; its characters are code points below 256.
    - A Python [int] is a [Z]; [str(i)] and [f"{i}"] are its decimal rendering.
    - Python's [float] is binary64.  Neither [float(s)] nor [repr] of a float is
      re-implemented: the float type, the parser and the printer are the
      variables of the section, so every result holds for CPython's own.
    - The dictionary [nodes_map] is a [gmap string Point].
    - Exceptions, [print] and the files are explicit: a computation takes a
      [World] (the files and what was printed) to a new [World] and an
      [outcome], which is a returned value or a raised exception. *)

From Stdlib Require Import ZArith Ascii String DecimalString.
From Stdlib Require Import DecimalPos DecimalZ.
From stdpp Require Import base list strings gmap.

Local Open Scope string_scope.
Local Open Scope list_scope.

(** ** Python string operations used by the script *)

Module Str.

Definition LF : ascii := "010"%char.
Definition CR : ascii := "013"%char.

(** [str.isspace] on one character, for code points below 256:
    TAB LF VT FF CR, FS GS RS US, SPACE, NEL and NBSP. *)
Definition isspace (c : ascii) : bool :=
  let n := nat_of_ascii c in
  (((9 <=? n) && (n <=? 13)) || ((28 <=? n) && (n <=? 32))
   || (n =? 133) || (n =? 160))%nat.

Fixpoint lstrip (s : string) : string :=
  match s with
  | EmptyString => EmptyString
  | String c s' => if isspace c then lstrip s' else s
  end.

Fixpoint rstrip (s : string) : string :=
  match s with
  | EmptyString => EmptyString
  | String c s' =>
      match rstrip s' with
      | EmptyString => if isspace c then EmptyString else String c EmptyString
      | r => String c r
      end
  end.

(** [s.strip()] *)
Definition strip (s : string) : string := rstrip (lstrip s).

(** [sub in s] *)
Fixpoint contains (sub s : string) : bool :=
  if String.prefix sub s then true
  else match s with
       | EmptyString => false
       | String _ s' => contains sub s'
       end.

(** [s.split(sep)] for a non-empty [sep]: the separators are found from
    left to right and do not overlap.  [skip] counts the characters of a
    separator still to be dropped, [cur] holds the current field reversed. *)
Fixpoint split_go (sep : string) (skip : nat) (cur : list ascii) (s : string)
  : list string :=
  match s with
  | EmptyString => [string_of_list_ascii (rev cur)]
  | String c s' =>
      match skip with
      | S k => split_go sep k cur s'
      | O =>
          if String.prefix sep s
          then string_of_list_ascii (rev cur)
                 :: split_go sep (String.length sep - 1) [] s'
          else split_go sep 0 (c :: cur) s'
      end
  end.

Definition split (sep s : string) : list string := split_go sep 0 [] s.

(** Text-mode reading with the default [newline=None]: CR LF and a lone
    CR both arrive as LF. *)
Fixpoint universal_newlines (s : string) : string :=
  match s with
  | EmptyString => EmptyString
  | String c s' =>
      if Ascii.eqb c CR then
        match s' with
        | String c' _ =>
            if Ascii.eqb c' LF then universal_newlines s'
            else String LF (universal_newlines s')
        | EmptyString => String LF EmptyString
        end
      else String c (universal_newlines s')
  end.

(** [f.readlines()]: the lines of the text, each with its terminating LF,
    the last one without when the text does not end in LF. *)
Fixpoint readlines (s : string) : list string :=
  match s with
  | EmptyString => []
  | String c s' =>
      if Ascii.eqb c LF then String c EmptyString :: readlines s'
      else match readlines s' with
           | [] => [String c EmptyString]
           | l :: ls => String c l :: ls
           end
  end.

(** The one-character string LF, written [\n] in the script. *)
Definition nl : string := String LF EmptyString.

(** The string holds no LF. *)
Fixpoint one_line (s : string) : bool :=
  match s with
  | EmptyString => true
  | String c s' => negb (Ascii.eqb c LF) && one_line s'
  end.

(** The string is one line with its terminator: a single LF, at the end. *)
Fixpoint is_line (s : string) : bool :=
  match s with
  | EmptyString => false
  | String c s' =>
      if Ascii.eqb c LF then
        match s' with EmptyString => true | _ => false end
      else is_line s'
  end.

(** Every character of the string passes the test [P]. *)
Fixpoint all (P : ascii -> bool) (s : string) : bool :=
  match s with
  | EmptyString => true
  | String c s' => P c && all P s'
  end.

(** [str(i)] for an [int] *)
Definition of_int (i : Z) : string := NilZero.string_of_int (Z.to_int i).

(** [sep.join(l)] with the empty separator *)
Fixpoint join (l : list string) : string :=
  match l with
  | [] => EmptyString
  | s :: l' => s +:+ join l'
  end.

End Str.

(** ** Exceptions, standard output and files *)

Inductive exn : Type :=
| FileNotFoundError (filename : string)
| ValueError
| KeyError (key : string).

Inductive outcome (A : Type) : Type :=
| Return (a : A)
| Raise (e : exn).

Arguments Return {A} a.
Arguments Raise {A} e.

(** [files] maps a file name to the text it holds, [stdout] lists what
    [print] wrote, oldest first.  A name without an entry is a missing file;
    the other ways in which [open] can fail are not part of the model. *)
Record World : Type := mkWorld {
  files : gmap string string;
  stdout : list string
}.

Definition IO (A : Type) : Type := World -> World * outcome A.

Definition ret {A : Type} (a : A) : IO A := fun w => (w, Return a).

Definition raise {A : Type} (e : exn) : IO A := fun w => (w, Raise e).

Definition bind {A B : Type} (m : IO A) (k : A -> IO B) : IO B :=
  fun w =>
    match m w with
    | (w', Return a) => k a w'
    | (w', Raise e) => (w', Raise e)
    end.

Notation "'let*' x ':=' m 'in' k" := (bind m (fun x => k))
  (at level 10, x name, m at level 100, k at level 200).
Notation "'let*' ' pat ':=' m 'in' k" :=
  (bind m (fun r => match r with pat => k end))
  (at level 10, pat pattern, m at level 100, k at level 200).
Notation "'do' m 'in' k" := (bind m (fun _ => k))
  (at level 10, m at level 100, k at level 200).

(** [print(s)] *)
Definition print (s : string) : IO unit :=
  fun w => (mkWorld (files w) (stdout w ++ [s]), Return tt).

(** [open(filename, "r")] followed by [f.readlines()] *)
Definition open_readlines (filename : string) : IO (list string) :=
  fun w =>
    match files w !! filename with
    | Some text => (w, Return (Str.readlines (Str.universal_newlines text)))
    | None => (w, Raise (FileNotFoundError filename))
    end.

(** [open(filename, "w")]: the file is created or emptied. *)
Definition open_w (filename : string) : IO unit :=
  fun w => (mkWorld (<[filename := EmptyString]> (files w)) (stdout w),
            Return tt).

(** [f.write(s)] on a file opened by [open_w] *)
Definition write (filename s : string) : IO unit :=
  fun w => (mkWorld (alter (fun t => t +:+ s) filename (files w)) (stdout w),
            Return tt).

(** ** The script *)

Section Script.

(** Python's [float]: the type, [float(s)] ([None] where CPython raises
    [ValueError]) and the [str.format] rendering of a float. *)
Context {float : Type}.
Variable float_of_str : string -> option float.
Variable str_of_float : float -> string.

(** [Point = namedtuple('Point', ['x', 'y', 'z'])] *)
Record Point : Type := mkPoint { x : float; y : float; z : float }.

Definition to_float (s : string) : IO float :=
  match float_of_str s with
  | Some v => ret v
  | None => raise ValueError
  end.

(** [zip(l1, l2, l3)]: it stops with the shortest list. *)
Fixpoint zip3 {A B C : Type} (l1 : list A) (l2 : list B) (l3 : list C)
  : list (A * B * C) :=
  match l1, l2, l3 with
  | a :: l1', b :: l2', c :: l3' => (a, b, c) :: zip3 l1' l2' l3'
  | _, _, _ => []
  end.

(** [MPC]: the loop appends one equation to [equations] for each triple. *)
Definition MPC (nodes base_nodes movable_nodes : list Z) : string :=
  let equations :=
    fold_left
      (fun equations '(node_id, base_node_id, mv_node_id) =>
         let eq :=
           "** MY EQUATIONS" +:+ Str.nl +:+ "*EQUATION" +:+ Str.nl
           +:+ "3" +:+ Str.nl
           +:+ Str.of_int node_id +:+ ", " +:+ Str.of_int 3 +:+ ", -1, "
           +:+ Str.of_int base_node_id +:+ ", " +:+ Str.of_int 3 +:+ ", 1, "
           +:+ Str.of_int mv_node_id +:+ ", " +:+ Str.of_int 3 +:+ ", 1"
           +:+ Str.nl in
         equations ++ [eq])
      (zip3 nodes base_nodes movable_nodes) [] in
  Str.join equations.

(** [get_nodes_map]: the loop over [f.readlines()], with the loop
    variables [found] and [nodes_map]. *)
Fixpoint get_nodes_map_loop (lines : list string) (found : bool)
    (nodes_map : gmap string Point) : IO (gmap string Point) :=
  match lines with
  | [] => ret nodes_map
  | line :: lines' =>
      let line := Str.strip line in
      if found then
        if Str.contains "**" line then ret nodes_map
        else
          match Str.split ", " line with
          | [node_id; sx; sy; sz] =>
              let* vx := to_float sx in
              let* vy := to_float sy in
              let* vz := to_float sz in
              get_nodes_map_loop lines' found
                (<[node_id := mkPoint vx vy vz]> nodes_map)
          | _ => raise ValueError
          end
      else
        if Str.contains "*Node" line then
          do print "Found where the nodes are" in
          get_nodes_map_loop lines' true nodes_map
        else get_nodes_map_loop lines' found nodes_map
  end.

Definition get_nodes_map (calculix_filename : string)
  : IO (gmap string Point) :=
  let* lines := open_readlines calculix_filename in
  get_nodes_map_loop lines false ∅.

(** [gen_nodes]: the loop over [enumerate(query_nodes)], with the index [i]
    and the loop variables [s] and [dummy_nodes]. *)
Fixpoint gen_nodes_loop (nodes_map : gmap string Point) (first_node_id : Z)
    (i : Z) (query_nodes : list Z) (s : string) (dummy_nodes : list Z)
  : IO (string * list Z) :=
  match query_nodes with
  | [] => ret (s, dummy_nodes)
  | node_id :: query_nodes' =>
      match nodes_map !! Str.of_int node_id with
      | None => raise (KeyError (Str.of_int node_id))
      | Some p =>
          gen_nodes_loop nodes_map first_node_id (i + 1)%Z query_nodes'
            (s +:+ Str.of_int (first_node_id + i)%Z +:+ ", "
               +:+ str_of_float (x p) +:+ ", "
               +:+ str_of_float (y p) +:+ ", "
               +:+ str_of_float (z p) +:+ Str.nl)
            (dummy_nodes ++ [(first_node_id + i)%Z])
      end
  end.

Definition gen_nodes (first_node_id : Z) (query_nodes : list Z)
    (calculix_filename : string) : IO (string * list Z) :=
  let* nodes_map := get_nodes_map calculix_filename in
  gen_nodes_loop nodes_map first_node_id 0 query_nodes
    ("** MY NODES" +:+ Str.nl +:+ "*Node" +:+ Str.nl) [].

Definition constrain_dofs (nodes : list Z) : string :=
  fold_left
    (fun s node_id => s +:+ Str.of_int node_id +:+ ", 1, 2" +:+ Str.nl)
    nodes
    ("** MY BOUNDARIES" +:+ Str.nl +:+ "*BOUNDARY" +:+ Str.nl).

Definition fix_base (nodes : list Z) : string :=
  fold_left
    (fun s node_id => s +:+ Str.of_int node_id +:+ ", 1, 3, 0" +:+ Str.nl)
    nodes
    ("** Name: MY BOUNDARIES" +:+ Str.nl +:+ "*BOUNDARY" +:+ Str.nl).

(** The node set listed in the script. *)
Definition nodes : list Z := [
  70; 71; 74; 75; 80; 81; 84; 85; 448; 452; 453; 454; 455; 456; 457; 458;
  459; 460; 461; 474; 478; 479; 480; 481; 482; 483; 484; 485; 486; 487; 615; 616;
  617; 618; 619; 620; 621; 622; 623; 624; 637; 638; 639; 640; 641; 642; 643; 644;
  645; 646; 648; 649; 650; 651; 652; 653; 654; 655; 656; 657; 658; 659; 660; 661;
  662; 663; 664; 665; 666; 667; 668; 669; 670; 671; 672; 673; 2586; 2587; 2588; 2589;
  2590; 2591; 2592; 2593; 2594; 2595; 2596; 2597; 2598; 2599; 2600; 2601; 2602; 2603; 2604; 2605;
  2606; 2607; 2608; 2609; 2610; 2611; 2612; 2613; 2614; 2615; 2616; 2617; 2618; 2619; 2620; 2621;
  2622; 2623; 2624; 2625; 2626; 2627; 2628; 2629; 2630; 2631; 2632; 2633; 2634; 2635; 2636; 2637;
  2638; 2639; 2640; 2641; 2642; 2643; 2644; 2645; 2646; 2647; 2648; 2649; 2650; 2651; 2652; 2653;
  2654; 2655; 2656; 2657; 2658; 2659; 2660; 2661; 2662; 2663; 2664; 2665; 2666; 2667; 2668; 2669;
  2670; 2671; 2672; 2673; 2674; 2675; 2676; 2677; 2678; 2679; 2680; 2681; 2682; 2683; 2684; 2685;
  2686; 2687; 2688; 2689; 2690; 2691; 2692; 2693; 2694; 2695; 2696; 2697; 2698; 2699; 2700; 2701;
  2702; 2703; 2704; 2705; 2706; 2707; 2708; 2709; 2710; 2711; 2712; 2713; 2714
]%Z.

(** The module-level statements: the three [with open(...)] blocks. *)
Definition main : IO unit :=
  do open_w "nodes.txt" in
  let* '(s, dummy_base_nodes) := gen_nodes 5487 nodes "Fitting_fea.inp" in
  do write "nodes.txt" s in
  let* '(s, dummy_movable_nodes) :=
    gen_nodes (5487 + Z.of_nat (length dummy_base_nodes))%Z nodes
      "Fitting_fea.inp" in
  do write "nodes.txt" s in
  do open_w "boundaries.txt" in
  do write "boundaries.txt" (fix_base dummy_base_nodes) in
  do write "boundaries.txt" (constrain_dofs dummy_movable_nodes) in
  do open_w "equations.txt" in
  write "equations.txt" (MPC nodes dummy_base_nodes dummy_movable_nodes).

(** *** Vocabulary of the properties

    The tests the loop of [get_nodes_map] applies to a line, named. *)

(** The line introduces the node section. *)
Definition is_marker (line : string) : bool :=
  Str.contains "*Node" (Str.strip line).

(** The line is a comment-marker line, which ends the node section. *)
Definition is_comment (line : string) : bool :=
  Str.contains "**" (Str.strip line).

(** The line is a well-formed [identifier, x, y, z] record: four fields
    separated by a comma and a space, the last three accepted by [float]. *)
Definition parse_record (line : string) : option (string * Point) :=
  match Str.split ", " (Str.strip line) with
  | [node_id; sx; sy; sz] =>
      match float_of_str sx, float_of_str sy, float_of_str sz with
      | Some vx, Some vy, Some vz => Some (node_id, mkPoint vx vy vz)
      | _, _, _ => None
      end
  | _ => None
  end.

(** The table after the records [entries] were stored in order, starting
    from [m]: a later record replaces an earlier one of the same
    identifier. *)
Definition store_all (entries : list (string * Point))
    (m : gmap string Point) : gmap string Point :=
  fold_left (fun m e => <[e.1 := e.2]> m) entries m.

(** The world after [print] reported the node section. *)
Definition announced (w : World) : World :=
  mkWorld (files w) (stdout w ++ ["Found where the nodes are"]).

(** One line of the node block. *)
Definition node_record (id : Z) (p : Point) : string :=
  Str.of_int id +:+ ", " +:+ str_of_float (x p) +:+ ", "
  +:+ str_of_float (y p) +:+ ", " +:+ str_of_float (z p) +:+ Str.nl.

(** The identifiers [first, first + 1, ..., first + k - 1]. *)
Definition id_range (first : Z) (k : nat) : list Z :=
  map (fun i => (first + Z.of_nat i)%Z) (seq 0 k).

(** The four lines of one equation. *)
Definition equation_lines (t : Z * Z * Z) : list string :=
  let '(n, b, m) := t in
  [ "** MY EQUATIONS" +:+ Str.nl;
    "*EQUATION" +:+ Str.nl;
    "3" +:+ Str.nl;
    Str.of_int n +:+ ", 3, -1, " +:+ Str.of_int b +:+ ", 3, 1, "
      +:+ Str.of_int m +:+ ", 3, 1" +:+ Str.nl ].

(** One record of the fixed-base block and one of the movable block. *)
Definition fixed_record (n : Z) : string :=
  Str.of_int n +:+ ", 1, 3, 0" +:+ Str.nl.

Definition movable_record (n : Z) : string :=
  Str.of_int n +:+ ", 1, 2" +:+ Str.nl.

(** A character that can stand inside a field of a record without being
    taken for something else: not a comma, not an asterisk, not white
    space. *)
Definition field_char (c : ascii) : bool :=
  negb (Ascii.eqb c ",") && negb (Ascii.eqb c "*") && negb (Str.isspace c).

(** The float is written as a non-empty field and [float] reads that field
    back as the same float. *)
Definition readable (v : float) : Prop :=
  float_of_str (str_of_float v) = Some v
  /\ str_of_float v <> EmptyString
  /\ Str.all field_char (str_of_float v) = true.

Definition readable_point (p : Point) : Prop :=
  readable (x p) /\ readable (y p) /\ readable (z p).

End Script.

Arguments Point : clear implicits.

(** ** A float to run the script on

    Unsigned decimal literals [digits.digits], kept as the integer part
    without leading zeros and the fraction without trailing zeros, and
    printed back in that form.  This is what CPython reads and prints for
    such a literal when it has at most 15 significant digits and denotes 0
    or a value from 0.0001 up to 1e16; the instance is meant for those. *)

Module Dec.

Definition float : Type := (string * string)%type.

Definition is_digit (c : ascii) : bool :=
  ((48 <=? nat_of_ascii c) && (nat_of_ascii c <=? 57))%nat.

Fixpoint digits (s : string) : bool :=
  match s with
  | EmptyString => true
  | String c s' => is_digit c && digits s'
  end.

Definition number (s : string) : bool :=
  match s with
  | EmptyString => false
  | _ => digits s
  end.

(** Drops the leading zeros, keeping the last character. *)
Fixpoint drop_zeros (s : string) : string :=
  match s with
  | String c ((String _ _) as s') =>
      if Ascii.eqb c "0"%char then drop_zeros s' else s
  | _ => s
  end.

Definition float_of_str (s : string) : option float :=
  match Str.split "." (Str.strip s) with
  | [i; f] =>
      if number i && number f
      then Some (drop_zeros i, String.rev (drop_zeros (String.rev f)))
      else None
  | _ => None
  end.

Definition str_of_float (v : float) : string := v.1 +:+ "." +:+ v.2.

End Dec.

(** ** Sample files

    Small mesh files, with the decimal float above, for running the script. *)

Module Sample.

Definition name : string := "Fitting_fea.inp".

(** A node section with two records, closed by a comment line. *)
Definition mesh : string :=
  "*Heading" +:+ Str.nl
  +:+ "*Node" +:+ Str.nl
  +:+ "  42, 1.0, 2.0, 3.0" +:+ Str.nl
  +:+ "7, 0.5, 0.25, 10.0" +:+ Str.nl
  +:+ "** Elements" +:+ Str.nl
  +:+ "*Element, type=C3D4" +:+ Str.nl.

Definition p42 : Point Dec.float := mkPoint ("1", "0") ("2", "0") ("3", "0").
Definition p7 : Point Dec.float := mkPoint ("0", "5") ("0", "25") ("10", "0").

Definition table : gmap string (Point Dec.float) :=
  <["7" := p7]> (<["42" := p42]> ∅).

(** Two records with the same identifier. *)
Definition repeated : string :=
  "*Node" +:+ Str.nl
  +:+ "1, 0.0, 0.0, 0.0" +:+ Str.nl
  +:+ "1, 1.0, 1.0, 1.0" +:+ Str.nl
  +:+ "**" +:+ Str.nl.

(** A record with three fields in the node section. *)
Definition malformed : string :=
  "*Node" +:+ Str.nl
  +:+ "42, 1.0, 2.0, 3.0" +:+ Str.nl
  +:+ "7, 0.5, 0.25" +:+ Str.nl
  +:+ "**" +:+ Str.nl.

(** Two lines that are not [identifier, x, y, z] records and that the loop
    takes all the same: one without an identifier, one with five values. *)
Definition odd : string :=
  "*Node" +:+ Str.nl
  +:+ ", 1.0, 2.0, 3.0" +:+ Str.nl
  +:+ "1,2.0, 3.0, 4.0, 5.0" +:+ Str.nl
  +:+ "**" +:+ Str.nl.

(** No node section. *)
Definition headless : string :=
  "*Heading" +:+ Str.nl
  +:+ "42, 1.0, 2.0, 3.0" +:+ Str.nl
  +:+ "**" +:+ Str.nl.

(** A node section that holds every node of the script's node set, all at
    (1.0, 2.0, 3.0). *)
Definition full : string :=
  "*Node" +:+ Str.nl
  +:+ Str.join (map (fun n => Str.of_int n +:+ ", 1.0, 2.0, 3.0" +:+ Str.nl)
                  nodes)
  +:+ "** Elements" +:+ Str.nl.

(** The table of [full]. *)
Definition full_table : gmap string (Point Dec.float) :=
  store_all (map (fun n => (Str.of_int n, p42)) nodes) ∅.

(** A node section that runs to the end of the file. *)
Definition open_ended : string :=
  "*Node" +:+ Str.nl
  +:+ "42, 1.0, 2.0, 3.0" +:+ Str.nl
  +:+ "7, 0.5, 0.25, 10.0".

(** A world that holds [text] as the mesh file and has printed nothing. *)
Definition world (text : string) : World := mkWorld {[ name := text ]} [].

End Sample.

(** ** The string operations on examples *)

Example strip_ex :
  Str.strip ("  12, 1.0, 2.0, 3.0 " +:+ Str.nl) = "12, 1.0, 2.0, 3.0".
Proof. reflexivity. Qed.

Example split_ex :
  Str.split ", " "12, 1.0, 2.0, 3.0" = ["12"; "1.0"; "2.0"; "3.0"].
Proof. reflexivity. Qed.

Example split_empty_ex : Str.split ", " EmptyString = [EmptyString].
Proof. reflexivity. Qed.

Example split_odd_ex :
  Str.split ", " "a,, b, , c,  d" = ["a,"; "b"; EmptyString; "c"; " d"].
Proof. reflexivity. Qed.

Example readlines_ex :
  Str.readlines ("a" +:+ Str.nl +:+ Str.nl +:+ "b")
  = ["a" +:+ Str.nl; Str.nl; "b"].
Proof. reflexivity. Qed.

Example universal_newlines_ex :
  Str.universal_newlines
    ("a" +:+ String Str.CR Str.nl +:+ "b" +:+ String Str.CR "c")
  = "a" +:+ Str.nl +:+ "b" +:+ Str.nl +:+ "c".
Proof. reflexivity. Qed.

Example of_int_ex :
  (Str.of_int 0, Str.of_int 5487, Str.of_int (-12)) = ("0", "5487", "-12").
Proof. reflexivity. Qed.

Example dec_ex :
  (Dec.str_of_float <$> Dec.float_of_str "1.0",
   Dec.str_of_float <$> Dec.float_of_str " 02.50",
   Dec.str_of_float <$> Dec.float_of_str "abc")
  = (Some "1.0", Some "2.5", None).
Proof. reflexivity. Qed.

(** ** Facts about the string operations *)

#[local] Arguments String.append : simpl nomatch.

Lemma append_assoc (a b c : string) : (a +:+ b) +:+ c = a +:+ (b +:+ c).
Proof. induction a as [|ch a IH]; simpl; [done | by rewrite IH]. Qed.

Lemma append_empty_r (a : string) : a +:+ EmptyString = a.
Proof. induction a as [|ch a IH]; simpl; [done | by rewrite IH]. Qed.

Lemma prefix_append (sub s t : string) :
  String.prefix sub s = true -> String.prefix sub (s +:+ t) = true.
Proof.
  revert sub. induction s as [|c s IH]; intros [|d sub]; simpl; try done.
  - by destruct t.
  - destruct (ascii_dec d c); [apply IH | done].
Qed.

Lemma contains_cons (sub : string) (c : ascii) (s : string) :
  Str.contains sub (String c s)
  = String.prefix sub (String c s) || Str.contains sub s.
Proof. done. Qed.

Lemma contains_append_l (sub s t : string) :
  Str.contains sub s = true -> Str.contains sub (s +:+ t) = true.
Proof.
  induction s as [|c s IH].
  - destruct sub; [by destruct t | done].
  - change (String c s +:+ t) with (String c (s +:+ t)).
    rewrite !contains_cons, !orb_true_iff. intros [Hp | Hc].
    + left. by apply (prefix_append _ (String c s) t).
    + right. by apply IH.
Qed.

Lemma contains_tail (sub : string) (c : ascii) (s : string) :
  Str.contains sub s = true -> Str.contains sub (String c s) = true.
Proof. rewrite contains_cons, orb_true_iff. by right. Qed.

Lemma contains_lstrip (sub s : string) :
  Str.contains sub (Str.lstrip s) = true -> Str.contains sub s = true.
Proof.
  induction s as [|c s IH]; [done |].
  cbn [Str.lstrip]. destruct (Str.isspace c); [| done].
  intros H. by apply contains_tail, IH.
Qed.

Lemma rstrip_prefix (s : string) : exists t, s = Str.rstrip s +:+ t.
Proof.
  induction s as [|c s [t IH]]; [by exists EmptyString |].
  cbn [Str.rstrip]. destruct (Str.rstrip s) as [|d r] eqn:Hr.
  - destruct (Str.isspace c).
    + by exists (String c s).
    + exists t. simpl in *. by rewrite <- IH.
  - exists t. simpl in *. by rewrite <- IH.
Qed.

Lemma contains_rstrip (sub s : string) :
  Str.contains sub (Str.rstrip s) = true -> Str.contains sub s = true.
Proof.
  destruct (rstrip_prefix s) as [t Ht]. intros H.
  rewrite Ht. by apply contains_append_l.
Qed.

(** A line holds whatever it holds once stripped. *)
Lemma contains_strip (sub s : string) :
  Str.contains sub (Str.strip s) = true -> Str.contains sub s = true.
Proof. intros H. by apply contains_lstrip, contains_rstrip. Qed.

Lemma join_app (l1 l2 : list string) :
  Str.join (l1 ++ l2) = Str.join l1 +:+ Str.join l2.
Proof.
  induction l1 as [|a l1 IH]; simpl; [done |].
  by rewrite IH, append_assoc.
Qed.

Lemma is_line_append (a b : string) :
  Str.one_line a = true -> Str.is_line (a +:+ b) = Str.is_line b.
Proof.
  induction a as [|c a IH]; simpl; [done |].
  destruct (Ascii.eqb c Str.LF); simpl; [done | apply IH].
Qed.

Lemma one_line_append (a b : string) :
  Str.one_line (a +:+ b) = Str.one_line a && Str.one_line b.
Proof.
  induction a as [|c a IH]; simpl; [done |].
  by rewrite IH, andb_assoc.
Qed.

(** [readlines] cuts after the first line. *)
Lemma readlines_is_line (l rest : string) :
  Str.is_line l = true ->
  Str.readlines (l +:+ rest) = l :: Str.readlines rest.
Proof.
  induction l as [|c l IH]; simpl; [done |].
  destruct (Ascii.eqb c Str.LF) eqn:Hc.
  - by destruct l.
  - intros Hl. by rewrite (IH Hl).
Qed.

Lemma readlines_join (ls : list string) (rest : string) :
  Forall (fun l => Str.is_line l = true) ls ->
  Str.readlines (Str.join ls +:+ rest) = ls ++ Str.readlines rest.
Proof.
  induction 1 as [|l ls Hl _ IH]; simpl; [done |].
  by rewrite append_assoc, (readlines_is_line _ _ Hl), IH.
Qed.

Lemma one_line_uint (d : Decimal.uint) :
  Str.one_line (NilEmpty.string_of_uint d) = true.
Proof. induction d; simpl; done. Qed.

(** The decimal rendering of an integer holds no line break. *)
Lemma one_line_of_int (i : Z) : Str.one_line (Str.of_int i) = true.
Proof.
  unfold Str.of_int, NilZero.string_of_int, NilZero.string_of_uint.
  destruct (Z.to_int i) as [d | d]; destruct d; simpl;
    try done; apply one_line_uint.
Qed.

(** ** The formatters *)

Lemma fold_left_append {A : Type} (f : A -> string) (l : list A) (s : string) :
  fold_left (fun s a => s +:+ f a) l s = s +:+ Str.join (map f l).
Proof.
  revert s. induction l as [|a l IH]; intros s; simpl.
  - by rewrite append_empty_r.
  - by rewrite IH, append_assoc.
Qed.

Lemma fold_left_snoc {A B : Type} (step : list B -> A -> list B) (f : A -> B)
    (l : list A) (acc : list B) :
  (forall acc a, step acc a = acc ++ [f a]) ->
  fold_left step l acc = acc ++ map f l.
Proof.
  intros Hstep. revert acc. induction l as [|a l IH]; intros acc; simpl.
  - by rewrite app_nil_r.
  - by rewrite IH, Hstep, <- app_assoc.
Qed.

Lemma is_line_fixed_record (n : Z) : Str.is_line (fixed_record n) = true.
Proof. unfold fixed_record. by rewrite is_line_append by apply one_line_of_int. Qed.

Lemma is_line_movable_record (n : Z) : Str.is_line (movable_record n) = true.
Proof. unfold movable_record. by rewrite is_line_append by apply one_line_of_int. Qed.

Lemma is_line_equation_lines (t : Z * Z * Z) :
  Forall (fun l => Str.is_line l = true) (equation_lines t).
Proof.
  destruct t as [[n b] m]. unfold equation_lines.
  repeat constructor.
  rewrite is_line_append by apply one_line_of_int.
  rewrite (is_line_append ", 3, -1, ") by done.
  rewrite is_line_append by apply one_line_of_int.
  rewrite (is_line_append ", 3, 1, ") by done.
  by rewrite is_line_append by apply one_line_of_int.
Qed.

Lemma fix_base_join (nodes : list Z) :
  fix_base nodes
  = "** Name: MY BOUNDARIES" +:+ Str.nl +:+ "*BOUNDARY" +:+ Str.nl
    +:+ Str.join (map fixed_record nodes).
Proof.
  unfold fix_base. rewrite (fold_left_append fixed_record).
  by rewrite !append_assoc.
Qed.

Lemma constrain_dofs_join (nodes : list Z) :
  constrain_dofs nodes
  = "** MY BOUNDARIES" +:+ Str.nl +:+ "*BOUNDARY" +:+ Str.nl
    +:+ Str.join (map movable_record nodes).
Proof.
  unfold constrain_dofs. rewrite (fold_left_append movable_record).
  by rewrite !append_assoc.
Qed.

Lemma join_records_lines {A : Type} (f : A -> string) (l : list A) :
  (forall a, Str.is_line (f a) = true) ->
  Str.readlines (Str.join (map f l)) = map f l.
Proof.
  intros Hf. rewrite <- (append_empty_r (Str.join _)), readlines_join.
  - apply app_nil_r.
  - apply Forall_forall. intros s [a [-> _]]%list_elem_of_fmap. apply Hf.
Qed.

(** C6, as amended: for every node list the fixed-base formatter emits the
    two header lines [** Name: MY BOUNDARIES] and [*BOUNDARY] followed by
    exactly one record per node, [n, 1, 3, 0], which restrains the degrees of
    freedom 1 through 3 to the value 0; on [[7, 8]] the records are the two
    lines [7, 1, 3, 0] and [8, 1, 3, 0]. *)
Theorem fix_base_records (nodes : list Z) :
  fix_base nodes
  = "** Name: MY BOUNDARIES" +:+ Str.nl +:+ "*BOUNDARY" +:+ Str.nl
    +:+ Str.join (map (fun n => Str.of_int n +:+ ", 1, 3, 0" +:+ Str.nl) nodes)
  /\ Str.readlines (fix_base nodes)
     = ("** Name: MY BOUNDARIES" +:+ Str.nl) :: ("*BOUNDARY" +:+ Str.nl)
       :: map (fun n => Str.of_int n +:+ ", 1, 3, 0" +:+ Str.nl) nodes
  /\ Str.readlines (fix_base [7; 8]%Z)
     = [ "** Name: MY BOUNDARIES" +:+ Str.nl; "*BOUNDARY" +:+ Str.nl;
         "7, 1, 3, 0" +:+ Str.nl; "8, 1, 3, 0" +:+ Str.nl ].
Proof.
  split; [apply fix_base_join | split; [| reflexivity]].
  rewrite fix_base_join.
  rewrite <- (append_assoc "*BOUNDARY"), <- (append_assoc "** Name: MY BOUNDARIES").
  rewrite (readlines_is_line ("** Name: MY BOUNDARIES" +:+ Str.nl)) by done.
  rewrite (readlines_is_line ("*BOUNDARY" +:+ Str.nl)) by done.
  do 2 f_equal. apply (join_records_lines fixed_record), is_line_fixed_record.
Qed.

(** C6 as stated fails: on [[7, 8]] the formatter yields four lines, the
    two records after the two header lines. *)
Lemma fix_base_not_two_lines :
  length (Str.readlines (fix_base [7; 8]%Z)) = 4
  /\ Str.readlines (fix_base [7; 8]%Z)
     <> [ "7, 1, 3, 0" +:+ Str.nl; "8, 1, 3, 0" +:+ Str.nl ].
Proof. split; [reflexivity | discriminate]. Qed.

(** C7, as amended: for every node list the movable-constraint formatter
    emits the two header lines [** MY BOUNDARIES] and [*BOUNDARY] followed by
    exactly one record per node, [n, 1, 2], which restrains the degrees of
    freedom 1 and 2 only; on [[7, 8]] the records are the two lines
    [7, 1, 2] and [8, 1, 2]. *)
Theorem constrain_dofs_records (nodes : list Z) :
  constrain_dofs nodes
  = "** MY BOUNDARIES" +:+ Str.nl +:+ "*BOUNDARY" +:+ Str.nl
    +:+ Str.join (map (fun n => Str.of_int n +:+ ", 1, 2" +:+ Str.nl) nodes)
  /\ Str.readlines (constrain_dofs nodes)
     = ("** MY BOUNDARIES" +:+ Str.nl) :: ("*BOUNDARY" +:+ Str.nl)
       :: map (fun n => Str.of_int n +:+ ", 1, 2" +:+ Str.nl) nodes
  /\ Str.readlines (constrain_dofs [7; 8]%Z)
     = [ "** MY BOUNDARIES" +:+ Str.nl; "*BOUNDARY" +:+ Str.nl;
         "7, 1, 2" +:+ Str.nl; "8, 1, 2" +:+ Str.nl ].
Proof.
  split; [apply constrain_dofs_join | split; [| reflexivity]].
  rewrite constrain_dofs_join.
  rewrite <- (append_assoc "*BOUNDARY"), <- (append_assoc "** MY BOUNDARIES").
  rewrite (readlines_is_line ("** MY BOUNDARIES" +:+ Str.nl)) by done.
  rewrite (readlines_is_line ("*BOUNDARY" +:+ Str.nl)) by done.
  do 2 f_equal.
  apply (join_records_lines movable_record), is_line_movable_record.
Qed.

(** C7 as stated fails: on [[7, 8]] the formatter yields four lines, the
    two records after the two header lines. *)
Lemma constrain_dofs_not_two_lines :
  length (Str.readlines (constrain_dofs [7; 8]%Z)) = 4
  /\ Str.readlines (constrain_dofs [7; 8]%Z)
     <> [ "7, 1, 2" +:+ Str.nl; "8, 1, 2" +:+ Str.nl ].
Proof. split; [reflexivity | discriminate]. Qed.

Lemma zip3_lookup {A B C : Type} (l1 : list A) (l2 : list B) (l3 : list C)
    (i : nat) (a : A) (b : B) (c : C) :
  zip3 l1 l2 l3 !! i = Some (a, b, c)
  <-> l1 !! i = Some a /\ l2 !! i = Some b /\ l3 !! i = Some c.
Proof.
  revert l2 l3 i.
  induction l1 as [|a1 l1 IH]; intros [|b1 l2] [|c1 l3] [|i]; simpl;
    try (split; [done | by intros (? & ? & ?)]).
  - split; [by intros [= -> -> ->] | by intros ([= ->] & [= ->] & [= ->])].
  - apply IH.
Qed.

Lemma zip3_length {A B C : Type} (l1 : list A) (l2 : list B) (l3 : list C) :
  length (zip3 l1 l2 l3) = length l1 `min` (length l2 `min` length l3).
Proof.
  revert l2 l3.
  induction l1 as [|a1 l1 IH]; intros [|b1 l2] [|c1 l3]; simpl; try done.
  by rewrite IH.
Qed.

Lemma zip3_take {A B C : Type} (l1 : list A) (l2 : list B) (l3 : list C)
    (k : nat) :
  length (zip3 l1 l2 l3) <= k ->
  zip3 (take k l1) (take k l2) (take k l3) = zip3 l1 l2 l3.
Proof.
  revert l2 l3 k.
  induction l1 as [|a1 l1 IH]; intros [|b1 l2] [|c1 l3] [|k]; simpl;
    try done; try lia.
  intros Hk. f_equal. apply IH. lia.
Qed.

Lemma join_equation_lines (n b m : Z) :
  "** MY EQUATIONS" +:+ Str.nl +:+ "*EQUATION" +:+ Str.nl +:+ "3" +:+ Str.nl
    +:+ Str.of_int n +:+ ", " +:+ Str.of_int 3 +:+ ", -1, "
    +:+ Str.of_int b +:+ ", " +:+ Str.of_int 3 +:+ ", 1, "
    +:+ Str.of_int m +:+ ", " +:+ Str.of_int 3 +:+ ", 1" +:+ Str.nl
  = Str.join (equation_lines (n, b, m)).
Proof.
  change (Str.of_int 3) with "3". unfold equation_lines, Str.join.
  by rewrite append_empty_r, !append_assoc.
Qed.

Lemma MPC_join (nodes base_nodes movable_nodes : list Z) :
  MPC nodes base_nodes movable_nodes
  = Str.join (concat (map equation_lines
                        (zip3 nodes base_nodes movable_nodes))).
Proof.
  unfold MPC.
  rewrite (fold_left_snoc _ (fun t => Str.join (equation_lines t))).
  - simpl. induction (zip3 nodes base_nodes movable_nodes) as [|t ts IH];
      [done |].
    cbn [map concat Str.join]. by rewrite IH, join_app.
  - intros acc [[n b] m]. by rewrite <- join_equation_lines.
Qed.

Lemma readlines_MPC (nodes base_nodes movable_nodes : list Z) :
  Str.readlines (MPC nodes base_nodes movable_nodes)
  = concat (map equation_lines (zip3 nodes base_nodes movable_nodes)).
Proof.
  rewrite MPC_join, <- (append_empty_r (Str.join _)), readlines_join.
  - apply app_nil_r.
  - induction (zip3 nodes base_nodes movable_nodes) as [|t ts IH];
      [constructor |].
    cbn [map concat]. apply Forall_app. split; [| done].
    apply is_line_equation_lines.
Qed.

Lemma concat_lookup_block {A B : Type} (f : A -> list B) (k : nat)
    (ts : list A) (i j : nat) (t : A) :
  (forall a, length (f a) = k) ->
  ts !! i = Some t -> j < k ->
  concat (map f ts) !! (k * i + j) = f t !! j.
Proof.
  intros Hlen. revert i.
  induction ts as [|a ts IH]; intros [|i] Hi Hj; simplify_eq/=.
  - rewrite Nat.mul_0_r, lookup_app_l; [done | by rewrite Hlen].
  - rewrite lookup_app_r; rewrite Hlen; [| lia].
    replace (k * S i + j - k) with (k * i + j) by lia. by apply IH.
Qed.

(** C3: for the triple [(n, b, m)] at position [i] of the three lists, the
    output of the equation formatter holds, after the two header lines of
    that equation, the line [3] followed by the line
    [n, 3, -1, b, 3, 1, m, 3, 1]: three terms on degree of freedom 3, with
    coefficient -1 on the original node and 1 on the base and movable nodes. *)
Theorem MPC_equation (nodes base_nodes movable_nodes : list Z) (i : nat)
    (n b m : Z) :
  nodes !! i = Some n ->
  base_nodes !! i = Some b ->
  movable_nodes !! i = Some m ->
  let out := Str.readlines (MPC nodes base_nodes movable_nodes) in
  out !! (4 * i) = Some ("** MY EQUATIONS" +:+ Str.nl)
  /\ out !! (4 * i + 1) = Some ("*EQUATION" +:+ Str.nl)
  /\ out !! (4 * i + 2) = Some ("3" +:+ Str.nl)
  /\ out !! (4 * i + 3)
     = Some (Str.of_int n +:+ ", 3, -1, " +:+ Str.of_int b +:+ ", 3, 1, "
             +:+ Str.of_int m +:+ ", 3, 1" +:+ Str.nl).
Proof.
  intros Hn Hb Hm out. subst out. rewrite readlines_MPC.
  assert (Ht : zip3 nodes base_nodes movable_nodes !! i = Some (n, b, m))
    by by apply zip3_lookup.
  assert (Hlen : forall t, length (equation_lines t) = 4)
    by by intros [[? ?] ?].
  rewrite <- (Nat.add_0_r (4 * i)) at 1.
  rewrite !(concat_lookup_block equation_lines 4 _ i _ _ Hlen Ht) by lia.
  done.
Qed.

Lemma MPC_equation_witness :
  let out := Str.readlines (MPC [1; 2]%Z [10; 20]%Z [100; 200]%Z) in
  out !! 4 = Some ("** MY EQUATIONS" +:+ Str.nl)
  /\ out !! 5 = Some ("*EQUATION" +:+ Str.nl)
  /\ out !! 6 = Some ("3" +:+ Str.nl)
  /\ out !! 7 = Some ("2, 3, -1, 20, 3, 1, 200, 3, 1" +:+ Str.nl).
Proof.
  apply (MPC_equation [1; 2]%Z [10; 20]%Z [100; 200]%Z 1 2 20 200);
    reflexivity.
Defined.

Lemma join_concat {A : Type} (f : A -> list string) (ts : list A) :
  Str.join (concat (map f ts)) = Str.join (map (fun t => Str.join (f t)) ts).
Proof.
  induction ts as [|t ts IH]; [done |].
  cbn [map concat Str.join]. by rewrite join_app, IH.
Qed.

Lemma length_concat_block {A B : Type} (f : A -> list B) (k : nat)
    (ts : list A) :
  (forall a, length (f a) = k) ->
  length (concat (map f ts)) = k * length ts.
Proof.
  intros Hlen. induction ts as [|t ts IH]; simpl; [lia |].
  rewrite length_app, IH, Hlen. lia.
Qed.

(** C10: on lists of unequal lengths the equation formatter returns (it has
    no failing path) the equations of the first
    [min(len(nodes), len(base_nodes), len(movable_nodes))] positions, paired
    by position, and nothing for the surplus entries: its output is that of
    the three lists cut to that length, and is made of four lines for each
    of these positions. *)
Theorem MPC_unequal_lengths (nodes base_nodes movable_nodes : list Z) :
  let k := length nodes `min` (length base_nodes `min` length movable_nodes) in
  let records := zip3 nodes base_nodes movable_nodes in
  length records = k
  /\ (forall i n b m,
        records !! i = Some (n, b, m)
        <-> nodes !! i = Some n /\ base_nodes !! i = Some b
            /\ movable_nodes !! i = Some m)
  /\ MPC nodes base_nodes movable_nodes
     = Str.join (map (fun t => Str.join (equation_lines t)) records)
  /\ Str.readlines (MPC nodes base_nodes movable_nodes)
     = concat (map equation_lines records)
  /\ length (Str.readlines (MPC nodes base_nodes movable_nodes)) = 4 * k
  /\ MPC nodes base_nodes movable_nodes
     = MPC (take k nodes) (take k base_nodes) (take k movable_nodes).
Proof.
  intros k records.
  assert (Hk : length records = k) by apply zip3_length.
  split; [done |]. split; [intros; apply zip3_lookup |].
  split; [| split; [apply readlines_MPC | split]].
  - rewrite MPC_join. apply join_concat.
  - rewrite readlines_MPC, <- Hk.
    apply length_concat_block. by intros [[? ?] ?].
  - rewrite !MPC_join, zip3_take; [done | fold records; lia].
Qed.

(** ** Node-table extraction *)

Section Extraction.

Context {float : Type}.
Variable float_of_str : string -> option float.

Local Abbreviation loop := (get_nodes_map_loop float_of_str).
Local Abbreviation parse := (parse_record float_of_str).

Implicit Types (m : gmap string (Point float)) (w : World).

(** One turn of the loop, by the kind of line it meets. *)

Lemma loop_skip line lines m w :
  is_marker line = false ->
  loop (line :: lines) false m w = loop lines false m w.
Proof. unfold is_marker. intros H. simpl. by rewrite H. Qed.

Lemma loop_marker line lines m w :
  is_marker line = true ->
  loop (line :: lines) false m w = loop lines true m (announced w).
Proof. unfold is_marker. intros H. simpl. by rewrite H. Qed.

Lemma loop_comment line lines m w :
  is_comment line = true ->
  loop (line :: lines) true m w = (w, Return m).
Proof. unfold is_comment. intros H. simpl. by rewrite H. Qed.

Lemma loop_record line lines m w id p :
  is_comment line = false ->
  parse line = Some (id, p) ->
  loop (line :: lines) true m w = loop lines true (<[id := p]> m) w.
Proof.
  unfold is_comment, parse_record. intros Hc Hp. simpl. rewrite Hc.
  destruct (Str.split ", " (Str.strip line))
    as [|f1 [|f2 [|f3 [|f4 [|f5 fs]]]]]; try done.
  unfold bind, to_float.
  destruct (float_of_str f2), (float_of_str f3), (float_of_str f4);
    try done.
  by simplify_eq.
Qed.

Lemma loop_malformed line lines m w :
  is_comment line = false ->
  parse line = None ->
  loop (line :: lines) true m w = (w, Raise ValueError).
Proof.
  unfold is_comment, parse_record. intros Hc Hp. simpl. rewrite Hc.
  destruct (Str.split ", " (Str.strip line))
    as [|f1 [|f2 [|f3 [|f4 [|f5 fs]]]]]; try done.
  unfold bind, to_float, raise, ret.
  by destruct (float_of_str f2), (float_of_str f3), (float_of_str f4).
Qed.

(** Runs of lines. *)

Lemma loop_before_marker pre lines m w :
  Forall (fun line => is_marker line = false) pre ->
  loop (pre ++ lines) false m w = loop lines false m w.
Proof.
  induction 1 as [|line pre Hline _ IH]; [done |].
  by rewrite <- app_comm_cons, loop_skip.
Qed.

Lemma loop_records recs entries lines m w :
  Forall2 (fun line e => is_comment line = false /\ parse line = Some e)
    recs entries ->
  loop (recs ++ lines) true m w = loop lines true (store_all entries m) w.
Proof.
  intros H. revert m.
  induction H as [|line [id p] recs entries [Hc Hp] _ IH]; intros m;
    [done |].
  rewrite <- app_comm_cons, (loop_record _ _ _ _ id p) by done.
  apply IH.
Qed.

(** What [open] finds decides [get_nodes_map]. *)

Lemma get_nodes_map_open calculix_filename text w :
  files w !! calculix_filename = Some text ->
  get_nodes_map float_of_str calculix_filename w
  = loop (Str.readlines (Str.universal_newlines text)) false ∅ w.
Proof.
  intros H. unfold get_nodes_map, bind, open_readlines. by rewrite H.
Qed.

(** The table built by storing records in order. *)

Lemma store_all_app (l1 l2 : list (string * Point float)) m :
  store_all (l1 ++ l2) m = store_all l2 (store_all l1 m).
Proof. apply fold_left_app. Qed.

Lemma store_all_cons e (l : list (string * Point float)) m :
  store_all (e :: l) m = store_all l (<[e.1 := e.2]> m).
Proof. done. Qed.

Lemma store_all_absent (entries : list (string * Point float)) m id :
  id ∉ entries.*1 -> store_all entries m !! id = m !! id.
Proof.
  revert m. induction entries as [|[id' p] entries IH]; intros m Hid; [done |].
  cbn in Hid. apply not_elem_of_cons in Hid as [Hne Hid].
  rewrite store_all_cons, IH by done. by rewrite lookup_insert_ne.
Qed.

Lemma store_all_last (before after : list (string * Point float)) m id p :
  id ∉ after.*1 ->
  store_all (before ++ (id, p) :: after) m !! id = Some p.
Proof.
  intros Hid. rewrite store_all_app, store_all_cons.
  rewrite store_all_absent by done. apply lookup_insert_eq.
Qed.

Lemma store_all_present (entries : list (string * Point float)) m id :
  id ∈ entries.*1 -> is_Some (store_all entries m !! id).
Proof.
  revert m. induction entries as [|[id' p] entries IH]; intros m Hid.
  - by apply elem_of_nil in Hid.
  - rewrite store_all_cons.
    destruct (decide (id ∈ entries.*1)) as [Hin | Hout]; [by apply IH |].
    cbn in Hid. apply elem_of_cons in Hid as [-> | Hin]; [| done].
    rewrite store_all_absent by done. cbn. rewrite lookup_insert_eq.
    by eexists.
Qed.

Lemma store_all_size (entries : list (string * Point float)) m :
  NoDup entries.*1 ->
  (forall id, id ∈ entries.*1 -> m !! id = None) ->
  size (store_all entries m) = size m + length entries.
Proof.
  revert m. induction entries as [|[id p] entries IH]; intros m Hnd Hfresh.
  - cbn. lia.
  - cbn in Hnd. apply NoDup_cons in Hnd as [Hid Hnd].
    rewrite store_all_cons. cbn [fst snd length].
    rewrite IH; [| done |].
    + rewrite map_size_insert_None; [lia |]. apply Hfresh. cbn. left.
    + intros id' Hid'. rewrite lookup_insert_ne by (intros ->; done).
      apply Hfresh. cbn. by right.
Qed.

Lemma is_marker_contains line :
  Str.contains "*Node" line = false -> is_marker line = false.
Proof.
  intros H. unfold is_marker.
  destruct (Str.contains "*Node" (Str.strip line)) eqn:Hs; [| done].
  apply contains_strip in Hs. congruence.
Qed.

(** C4, as amended: when the lines read from the file are lines without the
    marker, then a marker line, then well-formed records none of which is a
    comment-marker line, then a comment-marker line, [get_nodes_map] returns
    a table whose keys are exactly the identifiers of these records, each
    with the coordinates parsed from the last record that carries it; when
    the identifiers are pairwise distinct this is exactly one entry per
    record line, with the coordinates parsed from that record. *)
Theorem get_nodes_map_table calculix_filename text w pre marker recs entries
    term post :
  files w !! calculix_filename = Some text ->
  Str.readlines (Str.universal_newlines text)
  = pre ++ marker :: recs ++ term :: post ->
  Forall (fun line => is_marker line = false) pre ->
  is_marker marker = true ->
  Forall2 (fun line e => is_comment line = false /\ parse line = Some e)
    recs entries ->
  is_comment term = true ->
  exists tbl,
    get_nodes_map float_of_str calculix_filename w = (announced w, Return tbl)
    /\ (forall id, tbl !! id = None <-> id ∉ entries.*1)
    /\ (forall before id p after,
          entries = before ++ (id, p) :: after -> id ∉ after.*1 ->
          tbl !! id = Some p)
    /\ (NoDup entries.*1 ->
        size tbl = length recs
        /\ forall id p, (id, p) ∈ entries -> tbl !! id = Some p).
Proof.
  intros Hfile Hlines Hpre Hmarker Hrecs Hterm.
  exists (store_all entries ∅). split; [| split; [| split]].
  - rewrite (get_nodes_map_open _ _ _ Hfile), Hlines.
    rewrite loop_before_marker, loop_marker by done.
    by rewrite (loop_records _ _ _ _ _ Hrecs), loop_comment.
  - intros id. split.
    + intros Hnone Hin. apply (store_all_present _ ∅) in Hin as [p Hp].
      congruence.
    + intros Hout. by rewrite store_all_absent.
  - intros before id p after -> Hout. by apply store_all_last.
  - intros Hnd. split.
    + rewrite store_all_size, map_size_empty; [| done | done].
      symmetry. apply (Forall2_length _ _ _ Hrecs).
    + intros id p [i Hi]%list_elem_of_lookup.
      rewrite <- (take_drop_middle _ _ _ Hi). apply store_all_last.
      intros [j Hj]%list_elem_of_lookup.
      rewrite fmap_drop, lookup_drop in Hj.
      assert (Hi' : entries.*1 !! i = Some id) by by rewrite list_lookup_fmap, Hi.
      pose proof (NoDup_lookup _ _ _ _ Hnd Hi' Hj). lia.
Qed.

(** C5: when no line read from the file holds the marker, [get_nodes_map]
    raises nothing, prints nothing and returns the empty table. *)
Theorem get_nodes_map_no_marker calculix_filename text w :
  files w !! calculix_filename = Some text ->
  Forall (fun line => Str.contains "*Node" line = false)
    (Str.readlines (Str.universal_newlines text)) ->
  get_nodes_map float_of_str calculix_filename w = (w, Return ∅).
Proof.
  intros Hfile Hlines. rewrite (get_nodes_map_open _ _ _ Hfile).
  rewrite <- (app_nil_r (Str.readlines _)), loop_before_marker; [done |].
  eapply Forall_impl; [exact Hlines |]. apply is_marker_contains.
Qed.

(** What makes the loop reject a line of the node section: its stripped text
    does not split at comma-space into exactly four fields, or [float]
    refuses one of the last three. *)
Lemma parse_record_None line :
  parse line = None
  <-> forall id sx sy sz,
        Str.split ", " (Str.strip line) = [id; sx; sy; sz] ->
        float_of_str sx = None \/ float_of_str sy = None
        \/ float_of_str sz = None.
Proof.
  unfold parse_record.
  destruct (Str.split ", " (Str.strip line))
    as [|f1 [|f2 [|f3 [|f4 [|f5 fs]]]]]; try (split; [by intros _ | done]).
  destruct (float_of_str f2) as [vx|] eqn:Hx.
  2: { split; [| done]. intros _ id sx sy sz [= _ <- _ _]. by left. }
  destruct (float_of_str f3) as [vy|] eqn:Hy.
  2: { split; [| done]. intros _ id sx sy sz [= _ _ <- _]. by right; left. }
  destruct (float_of_str f4) as [vz|] eqn:Hz.
  2: { split; [| done]. intros _ id sx sy sz [= _ _ _ <-]. by right; right. }
  split; [done |]. intros H.
  destruct (H f1 f2 f3 f4 eq_refl) as [? | [? | ?]]; congruence.
Qed.

(** C8, as amended: when the lines read from the file are lines without
    the marker, then a marker line, then records that the loop accepts, then
    a line that is not a comment-marker line and whose stripped text does
    not split at comma-space into exactly four fields of which [float]
    accepts the last three, [get_nodes_map] raises [ValueError]: no table is
    returned and the lines after it are not read. *)
Theorem get_nodes_map_malformed calculix_filename text w pre marker recs
    entries bad post :
  files w !! calculix_filename = Some text ->
  Str.readlines (Str.universal_newlines text)
  = pre ++ marker :: recs ++ bad :: post ->
  Forall (fun line => is_marker line = false) pre ->
  is_marker marker = true ->
  Forall2 (fun line e => is_comment line = false /\ parse line = Some e)
    recs entries ->
  Str.contains "**" (Str.strip bad) = false ->
  (forall id sx sy sz,
     Str.split ", " (Str.strip bad) = [id; sx; sy; sz] ->
     float_of_str sx = None \/ float_of_str sy = None
     \/ float_of_str sz = None) ->
  get_nodes_map float_of_str calculix_filename w
  = (announced w, Raise ValueError).
Proof.
  intros Hfile Hlines Hpre Hmarker Hrecs Hc Hbad.
  apply parse_record_None in Hbad.
  rewrite (get_nodes_map_open _ _ _ Hfile), Hlines.
  rewrite loop_before_marker, loop_marker by done.
  by rewrite (loop_records _ _ _ _ _ Hrecs), loop_malformed.
Qed.

(** The world only receives what [print] writes; the outcome does not
    depend on it. *)
Lemma loop_world lines found m w1 w2 :
  (loop lines found m w1).2 = (loop lines found m w2).2
  /\ files (loop lines found m w1).1 = files w1.
Proof.
  revert found m w1 w2.
  induction lines as [|line lines IH]; intros found m w1 w2; [done |].
  destruct found.
  - destruct (is_comment line) eqn:Hc.
    + by rewrite !loop_comment.
    + destruct (parse line) as [[id p]|] eqn:Hp.
      * rewrite !(loop_record _ _ _ _ id p) by done. apply IH.
      * by rewrite !loop_malformed.
  - destruct (is_marker line) eqn:Hm.
    + rewrite !loop_marker by done.
      destruct (IH true m (announced w1) (announced w2)) as [-> ->]. done.
    + rewrite !loop_skip by done. apply IH.
Qed.

Lemma get_nodes_map_world calculix_filename w1 w2 :
  files w2 !! calculix_filename = files w1 !! calculix_filename ->
  (get_nodes_map float_of_str calculix_filename w1).2
  = (get_nodes_map float_of_str calculix_filename w2).2.
Proof.
  intros Hfiles. unfold get_nodes_map, bind, open_readlines.
  rewrite Hfiles. destruct (files w1 !! calculix_filename); [| done].
  apply loop_world.
Qed.

Lemma get_nodes_map_files calculix_filename w :
  files (get_nodes_map float_of_str calculix_filename w).1 = files w.
Proof.
  unfold get_nodes_map, bind, open_readlines.
  destruct (files w !! calculix_filename); [| done].
  apply (loop_world _ _ _ w w).
Qed.

End Extraction.

(** ** Node synthesis *)

Lemma id_range_S (first : Z) (k : nat) :
  id_range first (S k) = first :: id_range (first + 1) k.
Proof.
  unfold id_range. cbn [seq map]. f_equal; [f_equal; lia |].
  rewrite <- seq_shift, map_map. apply map_ext. intros i. lia.
Qed.

Lemma id_range_length (first : Z) (k : nat) : length (id_range first k) = k.
Proof. unfold id_range. by rewrite length_map, length_seq. Qed.

Lemma id_range_lookup (first : Z) (k i : nat) :
  i < k -> id_range first k !! i = Some (first + Z.of_nat i)%Z.
Proof.
  intros Hi. unfold id_range.
  rewrite list_lookup_fmap, lookup_seq_lt by done. done.
Qed.

Lemma id_range_elem_of (first : Z) (k : nat) (id : Z) :
  id ∈ id_range first k <-> (first <= id < first + Z.of_nat k)%Z.
Proof.
  unfold id_range. rewrite list_elem_of_fmap. split.
  - intros (i & -> & [_ Hi]%elem_of_seq). lia.
  - intros Hid. exists (Z.to_nat (id - first)). split; [lia |].
    apply elem_of_seq. lia.
Qed.

Section Synthesis.

Context {float : Type}.
Variable float_of_str : string -> option float.
Variable str_of_float : float -> string.

Local Abbreviation record := (node_record str_of_float).

Implicit Types (tbl : gmap string (Point float)) (w : World).

(** The loop of [gen_nodes] when every query node is in the table. *)
Lemma gen_nodes_loop_present tbl first_node_id query_nodes pts :
  Forall2 (fun q p => tbl !! Str.of_int q = Some p) query_nodes pts ->
  forall i s dummy_nodes w,
    gen_nodes_loop str_of_float tbl first_node_id i query_nodes s dummy_nodes w
    = (w, Return
            (s +:+ Str.join
                     (zip_with record
                        (id_range (first_node_id + i) (length query_nodes))
                        pts),
             dummy_nodes
               ++ id_range (first_node_id + i) (length query_nodes))).
Proof.
  induction 1 as [|q p query_nodes pts Hq _ IH]; intros i s dummy_nodes w.
  - cbn. by rewrite append_empty_r, app_nil_r.
  - cbn [gen_nodes_loop length]. rewrite Hq, IH, id_range_S.
    rewrite Z.add_assoc, <- app_assoc. cbn [zip_with Str.join].
    by rewrite append_assoc.
Qed.

(** The loop of [gen_nodes] up to the first query node with no entry. *)
Lemma gen_nodes_loop_missing tbl first_node_id present pts missing rest :
  Forall2 (fun q p => tbl !! Str.of_int q = Some p) present pts ->
  tbl !! Str.of_int missing = None ->
  forall i s dummy_nodes w,
    gen_nodes_loop str_of_float tbl first_node_id i
      (present ++ missing :: rest) s dummy_nodes w
    = (w, Raise (KeyError (Str.of_int missing))).
Proof.
  intros Hpresent Hmissing.
  induction Hpresent as [|q p present pts Hq _ IH]; intros i s dummy_nodes w.
  - cbn. by rewrite Hmissing.
  - cbn [app gen_nodes_loop]. by rewrite Hq, IH.
Qed.

(** Either every query node is in the table or there is a first one that
    is not. *)
Lemma query_nodes_cases tbl (query_nodes : list Z) :
  (exists pts,
     Forall2 (fun q p => tbl !! Str.of_int q = Some p) query_nodes pts)
  \/ (exists present pts missing rest,
        query_nodes = present ++ missing :: rest
        /\ Forall2 (fun q p => tbl !! Str.of_int q = Some p) present pts
        /\ tbl !! Str.of_int missing = None).
Proof.
  induction query_nodes as [|q query_nodes IH].
  - left. exists []. constructor.
  - destruct (tbl !! Str.of_int q) as [p|] eqn:Hq.
    + destruct IH as [[pts H] | (present & pts & missing & rest & -> & H & Hm)].
      * left. exists (p :: pts). by constructor.
      * right. exists (q :: present), (p :: pts), missing, rest.
        split; [done |]. split; [by constructor | done].
    + right. exists [], [], q, query_nodes.
      split; [done |]. split; [constructor | done].
Qed.

(** C1: when [get_nodes_map] returns the table [tbl] and every query node
    has an entry in it, [gen_nodes] returns the identifiers
    [N, N + 1, ..., N + k - 1] in that order, for [k] query nodes, and a
    text made of the two header lines and [k] records, the one at position
    [i] being [N + i] followed by the coordinates that the table holds for
    the query node at position [i]. *)
Theorem gen_nodes_ids first_node_id query_nodes calculix_filename w w' tbl :
  get_nodes_map float_of_str calculix_filename w = (w', Return tbl) ->
  (forall q, q ∈ query_nodes -> is_Some (tbl !! Str.of_int q)) ->
  exists records,
    gen_nodes float_of_str str_of_float first_node_id query_nodes
      calculix_filename w
    = (w', Return
             ("** MY NODES" +:+ Str.nl +:+ "*Node" +:+ Str.nl
                +:+ Str.join records,
              map (fun i => (first_node_id + Z.of_nat i)%Z)
                (seq 0 (length query_nodes))))
    /\ length records = length query_nodes
    /\ forall i q,
         query_nodes !! i = Some q ->
         exists p,
           tbl !! Str.of_int q = Some p
           /\ records !! i
              = Some (Str.of_int (first_node_id + Z.of_nat i) +:+ ", "
                      +:+ str_of_float (x p) +:+ ", "
                      +:+ str_of_float (y p) +:+ ", "
                      +:+ str_of_float (z p) +:+ Str.nl).
Proof.
  intros Hget Hall.
  destruct (query_nodes_cases tbl query_nodes)
    as [[pts Hpts] | (present & pts & missing & rest & -> & _ & Hm)].
  2: { destruct (Hall missing) as [p Hp]; [| congruence].
       apply elem_of_app. right. left. }
  exists (zip_with record (id_range first_node_id (length query_nodes)) pts).
  split; [| split].
  - unfold gen_nodes, bind. rewrite Hget, (gen_nodes_loop_present _ _ _ _ Hpts).
    by rewrite Z.add_0_r, !append_assoc.
  - rewrite length_zip_with, id_range_length, <- (Forall2_length _ _ _ Hpts).
    lia.
  - intros i q Hi.
    destruct (Forall2_lookup_l _ _ _ _ _ Hpts Hi) as (p & Hp & Hq).
    exists p. split; [done |].
    rewrite lookup_zip_with, id_range_lookup, Hp; [done |].
    by apply lookup_lt_Some in Hi.
Qed.

(** C2: when a first call of [gen_nodes] with the starting identifier [N]
    returns, a second call on the same query nodes and the same file with
    the starting identifier [N] plus the number of identifiers the first
    call returned, made in a world where the file is unchanged, returns as
    well, and no identifier is in both returned lists. *)
Theorem gen_nodes_twice_disjoint first_node_id query_nodes calculix_filename
    w w1 s1 ids1 v :
  gen_nodes float_of_str str_of_float first_node_id query_nodes
    calculix_filename w
  = (w1, Return (s1, ids1)) ->
  files v !! calculix_filename = files w !! calculix_filename ->
  exists v' s2 ids2,
    gen_nodes float_of_str str_of_float
      (first_node_id + Z.of_nat (length ids1)) query_nodes calculix_filename v
    = (v', Return (s2, ids2))
    /\ forall id, id ∈ ids1 -> id ∉ ids2.
Proof.
  intros Hgen Hfiles. unfold gen_nodes, bind in *.
  pose proof (get_nodes_map_world float_of_str calculix_filename w v Hfiles)
    as Hsame.
  destruct (get_nodes_map float_of_str calculix_filename w)
    as [w' [tbl | e]]; [| done].
  destruct (get_nodes_map float_of_str calculix_filename v) as [v' r].
  cbn in Hsame. subst r.
  destruct (query_nodes_cases tbl query_nodes)
    as [[pts Hpts] | (present & pts & missing & rest & -> & Hp & Hm)].
  - rewrite (gen_nodes_loop_present _ _ _ _ Hpts) in Hgen.
    rewrite (gen_nodes_loop_present _ _ _ _ Hpts).
    injection Hgen as -> <- <-. do 3 eexists. split; [done |].
    cbn [app]. rewrite id_range_length.
    intros id [_ H1]%id_range_elem_of [H2 _]%id_range_elem_of. lia.
  - by rewrite (gen_nodes_loop_missing _ _ _ _ _ _ Hp Hm) in Hgen.
Qed.

(** C9: when [get_nodes_map] returns the table [tbl] and some query node has
    no entry in it, [gen_nodes] raises [KeyError], on the first query node
    without an entry, and returns nothing. *)
Theorem gen_nodes_missing first_node_id query_nodes calculix_filename w w' tbl
    q :
  get_nodes_map float_of_str calculix_filename w = (w', Return tbl) ->
  q ∈ query_nodes ->
  tbl !! Str.of_int q = None ->
  exists present missing rest,
    query_nodes = present ++ missing :: rest
    /\ (forall q', q' ∈ present -> is_Some (tbl !! Str.of_int q'))
    /\ tbl !! Str.of_int missing = None
    /\ gen_nodes float_of_str str_of_float first_node_id query_nodes
         calculix_filename w
       = (w', Raise (KeyError (Str.of_int missing))).
Proof.
  intros Hget Hq Hnone.
  destruct (query_nodes_cases tbl query_nodes)
    as [[pts Hpts] | (present & pts & missing & rest & -> & Hp & Hm)].
  - apply list_elem_of_lookup in Hq as [i Hi].
    destruct (Forall2_lookup_l _ _ _ _ _ Hpts Hi) as (p & _ & Hsome).
    congruence.
  - exists present, missing, rest. split; [done |]. split; [| split; [done |]].
    + intros q' [i Hi]%list_elem_of_lookup.
      destruct (Forall2_lookup_l _ _ _ _ _ Hp Hi) as (p & _ & Hsome).
      by eexists.
    + unfold gen_nodes, bind.
      by rewrite Hget, (gen_nodes_loop_missing _ _ _ _ _ _ Hp Hm).
Qed.

End Synthesis.

(** ** The script on the sample files *)

(** The end-to-end example: the node 42 at (1.0, 2.0, 3.0), the query list
    [[42]] and the first identifier 100. *)
Example gen_nodes_end_to_end :
  gen_nodes Dec.float_of_str Dec.str_of_float 100 [42%Z] Sample.name
    (Sample.world Sample.mesh)
  = (announced (Sample.world Sample.mesh),
     Return ("** MY NODES" +:+ Str.nl +:+ "*Node" +:+ Str.nl
               +:+ "100, 1.0, 2.0, 3.0" +:+ Str.nl,
             [100%Z])).
Proof. reflexivity. Qed.

Example get_nodes_map_sample :
  get_nodes_map Dec.float_of_str Sample.name (Sample.world Sample.mesh)
  = (announced (Sample.world Sample.mesh), Return Sample.table).
Proof. reflexivity. Qed.

Example get_nodes_map_missing_file :
  get_nodes_map Dec.float_of_str "other.inp" (Sample.world Sample.mesh)
  = (Sample.world Sample.mesh, Raise (FileNotFoundError "other.inp")).
Proof. reflexivity. Qed.

Lemma gen_nodes_ids_witness :
  exists records,
    gen_nodes Dec.float_of_str Dec.str_of_float 100 [42; 7]%Z Sample.name
      (Sample.world Sample.mesh)
    = (announced (Sample.world Sample.mesh),
       Return ("** MY NODES" +:+ Str.nl +:+ "*Node" +:+ Str.nl
                 +:+ Str.join records,
               [100; 101]%Z))
    /\ records !! 1 = Some ("101, 0.5, 0.25, 10.0" +:+ Str.nl).
Proof.
  destruct (gen_nodes_ids Dec.float_of_str Dec.str_of_float 100 [42; 7]%Z
              Sample.name (Sample.world Sample.mesh)
              (announced (Sample.world Sample.mesh)) Sample.table)
    as (records & Hgen & _ & Hrec).
  - reflexivity.
  - intros q Hq. apply list_elem_of_In in Hq.
    destruct Hq as [<- | [<- | []]]; by eexists.
  - exists records. split; [exact Hgen |].
    destruct (Hrec 1 7%Z eq_refl) as (p & Hp & ->).
    injection Hp as <-. reflexivity.
Defined.

Lemma gen_nodes_twice_disjoint_witness :
  exists v' s2,
    gen_nodes Dec.float_of_str Dec.str_of_float 102 [42; 7]%Z Sample.name
      (announced (Sample.world Sample.mesh))
    = (v', Return (s2, [102; 103]%Z)).
Proof.
  destruct (gen_nodes_twice_disjoint Dec.float_of_str Dec.str_of_float 100
              [42; 7]%Z Sample.name (Sample.world Sample.mesh)
              (announced (Sample.world Sample.mesh))
              ("** MY NODES" +:+ Str.nl +:+ "*Node" +:+ Str.nl
                 +:+ "100, 1.0, 2.0, 3.0" +:+ Str.nl
                 +:+ "101, 0.5, 0.25, 10.0" +:+ Str.nl)
              [100; 101]%Z (announced (Sample.world Sample.mesh)))
    as (v' & s2 & ids2 & Hgen & _).
  - reflexivity.
  - reflexivity.
  - exists v', s2. vm_compute in Hgen. injection Hgen as <- <- _.
    reflexivity.
Defined.

Lemma gen_nodes_missing_witness :
  gen_nodes Dec.float_of_str Dec.str_of_float 100 [42; 8; 9]%Z Sample.name
    (Sample.world Sample.mesh)
  = (announced (Sample.world Sample.mesh), Raise (KeyError "8")).
Proof.
  destruct (gen_nodes_missing Dec.float_of_str Dec.str_of_float 100
              [42; 8; 9]%Z Sample.name (Sample.world Sample.mesh)
              (announced (Sample.world Sample.mesh)) Sample.table 9%Z)
    as (present & missing & rest & _ & _ & _ & Hgen).
  - reflexivity.
  - apply list_elem_of_In. right. right. by left.
  - reflexivity.
  - reflexivity.
Defined.

Lemma get_nodes_map_table_witness :
  exists tbl,
    get_nodes_map Dec.float_of_str Sample.name (Sample.world Sample.mesh)
    = (announced (Sample.world Sample.mesh), Return tbl)
    /\ size tbl = 2
    /\ tbl !! "42" = Some Sample.p42
    /\ tbl !! "7" = Some Sample.p7
    /\ tbl !! "8" = None.
Proof.
  destruct (get_nodes_map_table Dec.float_of_str Sample.name Sample.mesh
              (Sample.world Sample.mesh)
              ["*Heading" +:+ Str.nl]
              ("*Node" +:+ Str.nl)
              ["  42, 1.0, 2.0, 3.0" +:+ Str.nl; "7, 0.5, 0.25, 10.0" +:+ Str.nl]
              [("42", Sample.p42); ("7", Sample.p7)]
              ("** Elements" +:+ Str.nl)
              ["*Element, type=C3D4" +:+ Str.nl])
    as (tbl & Hget & Hkeys & _ & Hdistinct).
  - reflexivity.
  - reflexivity.
  - repeat constructor.
  - reflexivity.
  - repeat constructor.
  - reflexivity.
  - assert (Hnd : NoDup [("42", Sample.p42); ("7", Sample.p7)].*1)
      by (apply (bool_decide_unpack _); vm_compute; exact I).
    destruct (Hdistinct Hnd) as [Hsize Hall].
    exists tbl. split; [exact Hget |]. split; [exact Hsize |].
    split; [| split].
    + apply Hall. left.
    + apply Hall. right. left.
    + apply Hkeys. apply (bool_decide_unpack _). vm_compute. exact I.
Defined.

(** C4 as stated fails: two well-formed records with the same identifier
    between the marker and the terminator leave one entry in the table, and
    it holds the coordinates of the second record, not those of the first. *)
Lemma get_nodes_map_repeated_identifier :
  Str.readlines (Str.universal_newlines Sample.repeated)
  = [ "*Node" +:+ Str.nl; "1, 0.0, 0.0, 0.0" +:+ Str.nl;
      "1, 1.0, 1.0, 1.0" +:+ Str.nl; "**" +:+ Str.nl ]
  /\ parse_record Dec.float_of_str ("1, 0.0, 0.0, 0.0" +:+ Str.nl)
     = Some ("1", mkPoint ("0", "0") ("0", "0") ("0", "0"))
  /\ parse_record Dec.float_of_str ("1, 1.0, 1.0, 1.0" +:+ Str.nl)
     = Some ("1", mkPoint ("1", "0") ("1", "0") ("1", "0"))
  /\ exists tbl,
       get_nodes_map Dec.float_of_str Sample.name
         (Sample.world Sample.repeated)
       = (announced (Sample.world Sample.repeated), Return tbl)
       /\ size tbl = 1
       /\ tbl !! "1" = Some (mkPoint ("1", "0") ("1", "0") ("1", "0"))
       /\ tbl !! "1" <> Some (mkPoint ("0", "0") ("0", "0") ("0", "0")).
Proof.
  do 3 (split; [reflexivity |]).
  exists {[ "1" := mkPoint ("1", "0") ("1", "0") ("1", "0") ]}.
  split; [reflexivity |]. split; [reflexivity |].
  split; [reflexivity | discriminate].
Qed.

Lemma get_nodes_map_no_marker_witness :
  get_nodes_map Dec.float_of_str Sample.name (Sample.world Sample.headless)
  = (Sample.world Sample.headless, Return ∅).
Proof.
  apply (get_nodes_map_no_marker Dec.float_of_str Sample.name Sample.headless).
  - reflexivity.
  - repeat constructor.
Defined.

Lemma get_nodes_map_malformed_witness :
  get_nodes_map Dec.float_of_str Sample.name (Sample.world Sample.malformed)
  = (announced (Sample.world Sample.malformed), Raise ValueError).
Proof.
  apply (get_nodes_map_malformed Dec.float_of_str Sample.name Sample.malformed
           (Sample.world Sample.malformed)
           [] ("*Node" +:+ Str.nl)
           ["42, 1.0, 2.0, 3.0" +:+ Str.nl] [("42", Sample.p42)]
           ("7, 0.5, 0.25" +:+ Str.nl) ["**" +:+ Str.nl]).
  - reflexivity.
  - reflexivity.
  - constructor.
  - reflexivity.
  - repeat constructor.
  - reflexivity.
  - intros id sx sy sz H. vm_compute in H. discriminate H.
Defined.

(** C8 as stated fails: a line without an identifier and a line with five
    values, neither of them an [identifier, x, y, z] record nor a
    comment-marker line, are stored under the keys that [split] makes of
    them, and the table is returned without an error. *)
Lemma get_nodes_map_accepts_odd_records :
  Str.readlines (Str.universal_newlines Sample.odd)
  = [ "*Node" +:+ Str.nl; ", 1.0, 2.0, 3.0" +:+ Str.nl;
      "1,2.0, 3.0, 4.0, 5.0" +:+ Str.nl; "**" +:+ Str.nl ]
  /\ is_comment (", 1.0, 2.0, 3.0" +:+ Str.nl) = false
  /\ Str.split ", " (Str.strip (", 1.0, 2.0, 3.0" +:+ Str.nl))
     = [EmptyString; "1.0"; "2.0"; "3.0"]
  /\ is_comment ("1,2.0, 3.0, 4.0, 5.0" +:+ Str.nl) = false
  /\ Str.split "," (Str.strip ("1,2.0, 3.0, 4.0, 5.0" +:+ Str.nl))
     = ["1"; "2.0"; " 3.0"; " 4.0"; " 5.0"]
  /\ get_nodes_map Dec.float_of_str Sample.name (Sample.world Sample.odd)
     = (announced (Sample.world Sample.odd),
        Return (<["1,2.0" := mkPoint ("3", "0") ("4", "0") ("5", "0")]>
                  (<[EmptyString :=
                       mkPoint ("1", "0") ("2", "0") ("3", "0")]> ∅))).
Proof. repeat split; reflexivity. Qed.

(** ** The whole script *)

Example main_missing_file :
  main Dec.float_of_str Dec.str_of_float (mkWorld ∅ [])
  = (mkWorld {[ "nodes.txt" := EmptyString ]} [],
     Raise (FileNotFoundError "Fitting_fea.inp")).
Proof. reflexivity. Qed.

Example main_missing_node :
  (main Dec.float_of_str Dec.str_of_float (Sample.world Sample.mesh)).2
  = Raise (KeyError "70").
Proof. reflexivity. Qed.

Example main_full :
  let w := (main Dec.float_of_str Dec.str_of_float
              (Sample.world Sample.full)).1 in
  (main Dec.float_of_str Dec.str_of_float (Sample.world Sample.full)).2
  = Return tt
  /\ stdout w = ["Found where the nodes are"; "Found where the nodes are"]
  /\ (length ∘ Str.readlines <$> files w !! "nodes.txt") = Some (2 * (2 + 205))
  /\ (length ∘ Str.readlines <$> files w !! "boundaries.txt")
     = Some (2 * (2 + 205))
  /\ (take 8 ∘ Str.readlines <$> files w !! "equations.txt")
     = Some [ "** MY EQUATIONS" +:+ Str.nl; "*EQUATION" +:+ Str.nl;
              "3" +:+ Str.nl; "70, 3, -1, 5487, 3, 1, 5692, 3, 1" +:+ Str.nl;
              "** MY EQUATIONS" +:+ Str.nl; "*EQUATION" +:+ Str.nl;
              "3" +:+ Str.nl; "71, 3, -1, 5488, 3, 1, 5693, 3, 1" +:+ Str.nl ].
Proof. vm_compute. repeat split. Qed.

(** ** More on node-table extraction *)

Section ExtractionMore.

Context {float : Type}.
Variable float_of_str : string -> option float.

Local Abbreviation loop := (get_nodes_map_loop float_of_str).
Local Abbreviation parse := (parse_record float_of_str).

Implicit Types (m : gmap string (Point float)) (w : World).

(** X1: A node section that runs to the end of the file: the terminator is not
    needed, the table holds every record read. *)
Theorem get_nodes_map_unterminated calculix_filename text w pre marker recs
    entries :
  files w !! calculix_filename = Some text ->
  Str.readlines (Str.universal_newlines text) = pre ++ marker :: recs ->
  Forall (fun line => is_marker line = false) pre ->
  is_marker marker = true ->
  Forall2 (fun line e => is_comment line = false /\ parse line = Some e)
    recs entries ->
  get_nodes_map float_of_str calculix_filename w
  = (announced w, Return (store_all entries ∅))
  /\ (forall id, store_all entries ∅ !! id = None <-> id ∉ entries.*1)
  /\ (forall before id p after,
        entries = before ++ (id, p) :: after -> id ∉ after.*1 ->
        store_all entries ∅ !! id = Some p).
Proof.
  intros Hfile Hlines Hpre Hmarker Hrecs. split; [| split].
  - rewrite (get_nodes_map_open _ _ _ _ Hfile), Hlines.
    rewrite loop_before_marker, loop_marker by done.
    rewrite <- (app_nil_r recs).
    by rewrite (loop_records _ _ _ _ _ _ Hrecs).
  - intros id. split.
    + intros Hnone Hin. apply (store_all_present _ ∅) in Hin as [p Hp].
      congruence.
    + intros Hout. by rewrite store_all_absent.
  - intros before id p after -> Hout. by apply store_all_last.
Qed.



(** What the loop does to the world: nothing to the files, and one message
    when it was still looking for the marker and a line holds it. *)
Lemma loop_effects lines found m w :
  (loop lines found m w).1
  = if negb found && existsb is_marker lines then announced w else w.
Proof.
  revert found m w.
  induction lines as [|line lines IH]; intros found m w.
  - by destruct found.
  - destruct found.
    + destruct (is_comment line) eqn:Hc; [by rewrite loop_comment |].
      destruct (parse line) as [[id p]|] eqn:Hp.
      * rewrite (loop_record _ _ _ _ _ id p) by done. apply (IH true).
      * by rewrite loop_malformed.
    + cbn [existsb]. destruct (is_marker line) eqn:Hm.
      * rewrite loop_marker by done. apply (IH true).
      * rewrite loop_skip by done. apply (IH false).
Qed.

(** X3: [get_nodes_map] never changes a file, and it prints its message once
    exactly when the file exists and one of its lines holds the marker,
    whether it then returns or raises. *)
Theorem get_nodes_map_effects calculix_filename w :
  (get_nodes_map float_of_str calculix_filename w).1
  = match files w !! calculix_filename with
    | Some text =>
        if existsb is_marker (Str.readlines (Str.universal_newlines text))
        then mkWorld (files w) (stdout w ++ ["Found where the nodes are"])
        else w
    | None => w
    end.
Proof.
  destruct (files w !! calculix_filename) as [text|] eqn:Hfile.
  - rewrite (get_nodes_map_open _ _ _ _ Hfile). apply loop_effects.
  - unfold get_nodes_map, bind, open_readlines. by rewrite Hfile.
Qed.

End ExtractionMore.

(** ** More on node synthesis *)

Lemma id_range_NoDup (first : Z) (k : nat) : NoDup (id_range first k).
Proof.
  unfold id_range. apply NoDup_fmap_2; [| apply NoDup_seq].
  intros i j Hij. cbv beta in Hij. lia.
Qed.

Section SynthesisMore.

Context {float : Type}.
Variable float_of_str : string -> option float.
Variable str_of_float : float -> string.

Implicit Types (tbl : gmap string (Point float)) (w : World).

Lemma all_present_points tbl (l : list Z) :
  (forall q, q ∈ l -> is_Some (tbl !! Str.of_int q)) ->
  exists pts, Forall2 (fun q p => tbl !! Str.of_int q = Some p) l pts.
Proof.
  intros Hall.
  destruct (query_nodes_cases tbl l)
    as [H | (present & pts & missing & rest & -> & _ & Hm)]; [done |].
  destruct (Hall missing) as [p Hp]; [| congruence].
  apply elem_of_app. right. left.
Qed.

Lemma points_all_present tbl (l : list Z) pts :
  Forall2 (fun q p => tbl !! Str.of_int q = Some p) l pts ->
  forall q, q ∈ l -> is_Some (tbl !! Str.of_int q).
Proof.
  intros H q [i Hi]%list_elem_of_lookup.
  destruct (Forall2_lookup_l _ _ _ _ _ H Hi) as (p & _ & Hp). by eexists.
Qed.

(** X5: Whenever [gen_nodes] returns, [get_nodes_map] had returned a table that
    holds every query node, and the identifiers returned are the [k]
    consecutive integers from [first_node_id] on, pairwise distinct, one per
    query node, also when query nodes repeat. *)
Theorem gen_nodes_returns first_node_id query_nodes calculix_filename w w' s
    ids :
  gen_nodes float_of_str str_of_float first_node_id query_nodes
    calculix_filename w
  = (w', Return (s, ids)) ->
  exists tbl,
    get_nodes_map float_of_str calculix_filename w = (w', Return tbl)
    /\ (forall q, q ∈ query_nodes -> is_Some (tbl !! Str.of_int q))
    /\ ids = map (fun i => (first_node_id + Z.of_nat i)%Z)
               (seq 0 (length query_nodes))
    /\ length ids = length query_nodes
    /\ NoDup ids.
Proof.
  unfold gen_nodes, bind. intros Hgen.
  destruct (get_nodes_map float_of_str calculix_filename w)
    as [w1 [tbl | e]]; [| done].
  destruct (query_nodes_cases tbl query_nodes)
    as [[pts Hpts] | (present & pts & missing & rest & -> & Hp & Hm)].
  - rewrite (gen_nodes_loop_present _ _ _ _ _ Hpts) in Hgen.
    injection Hgen as -> _ <-. exists tbl.
    split; [done |]. split; [by eapply points_all_present |].
    rewrite Z.add_0_r. cbn [app].
    split; [done |]. split; [apply id_range_length | apply id_range_NoDup].
  - by rewrite (gen_nodes_loop_missing _ _ _ _ _ _ _ Hp Hm) in Hgen.
Qed.

(** X6: When and what [gen_nodes] raises: either what [get_nodes_map] raised,
    whatever the query nodes are, or, on a table that [get_nodes_map]
    returned, [KeyError] with the key of the first query node that has no
    entry. *)
Theorem gen_nodes_raises first_node_id query_nodes calculix_filename w w' e :
  gen_nodes float_of_str str_of_float first_node_id query_nodes
    calculix_filename w
  = (w', Raise e)
  <-> get_nodes_map float_of_str calculix_filename w = (w', Raise e)
      \/ exists tbl present missing rest,
           get_nodes_map float_of_str calculix_filename w = (w', Return tbl)
           /\ query_nodes = present ++ missing :: rest
           /\ (forall q, q ∈ present -> is_Some (tbl !! Str.of_int q))
           /\ tbl !! Str.of_int missing = None
           /\ e = KeyError (Str.of_int missing).
Proof.
  unfold gen_nodes, bind. split.
  - intros Hgen.
    destruct (get_nodes_map float_of_str calculix_filename w)
      as [w1 [tbl | e1]]; cbn in Hgen;
      [| left; by injection Hgen as -> ->].
    right.
    destruct (query_nodes_cases tbl query_nodes)
      as [[pts Hpts] | (present & pts & missing & rest & -> & Hp & Hm)].
    + by rewrite (gen_nodes_loop_present _ _ _ _ _ Hpts) in Hgen.
    + rewrite (gen_nodes_loop_missing _ _ _ _ _ _ _ Hp Hm) in Hgen.
      injection Hgen as -> <-. exists tbl, present, missing, rest.
      split; [done |]. split; [done |].
      split; [by eapply points_all_present | done].
  - intros [-> | (tbl & present & missing & rest & -> & -> & Hall & Hm & ->)];
      [done |].
    destruct (all_present_points _ _ Hall) as [pts Hp].
    by rewrite (gen_nodes_loop_missing _ _ _ _ _ _ _ Hp Hm).
Qed.

End SynthesisMore.

(** ** More on the formatters *)

Lemma append_length (a b : string) :
  String.length (a +:+ b) = String.length a + String.length b.
Proof. induction a as [|c a IH]; simpl; [done | by rewrite IH]. Qed.

Lemma append_inj_r (a b s : string) : a +:+ s = b +:+ s -> a = b.
Proof.
  revert b. induction a as [|c a IH]; intros [|d b] H; simpl in H.
  - done.
  - apply (f_equal String.length) in H. simpl in H.
    rewrite append_length in H. lia.
  - apply (f_equal String.length) in H. simpl in H.
    rewrite append_length in H. lia.
  - injection H as -> H. f_equal. by apply IH.
Qed.

Lemma all_append (P : ascii -> bool) (a b : string) :
  Str.all P (a +:+ b) = Str.all P a && Str.all P b.
Proof.
  induction a as [|c a IH]; simpl; [done |]. by rewrite IH, andb_assoc.
Qed.

Lemma all_uint (P : ascii -> bool) (d : Decimal.uint) :
  forallb P (list_ascii_of_string "0123456789") = true ->
  Str.all P (NilEmpty.string_of_uint d) = true.
Proof.
  intros HP. cbn in HP. repeat (apply andb_prop in HP as [? HP]).
  induction d; simpl; rewrite ?IHd; by rewrite ?andb_true_r.
Qed.

(** The decimal rendering of an integer is made of digits, after a minus
    sign when it is negative. *)
Lemma all_of_int (P : ascii -> bool) (i : Z) :
  forallb P (list_ascii_of_string "-0123456789") = true ->
  Str.all P (Str.of_int i) = true.
Proof.
  intros HP. cbn [list_ascii_of_string forallb] in HP.
  apply andb_prop in HP as [Hminus HP].
  assert (H0 : P "0"%char = true) by (cbn in HP; by apply andb_prop in HP as [? _]).
  unfold Str.of_int, NilZero.string_of_int, NilZero.string_of_uint.
  destruct (Z.to_int i) as [d | d]; destruct d; simpl;
    rewrite ?Hminus, ?H0; try done;
    (rewrite all_uint by done);
    cbn in HP; repeat (apply andb_prop in HP as [? HP]);
    by repeat match goal with H : P _ = true |- _ => rewrite H; clear H end.
Qed.

(** Distinct integers have distinct renderings. *)
Lemma of_int_inj (i j : Z) : Str.of_int i = Str.of_int j -> i = j.
Proof.
  unfold Str.of_int. intros H. apply DecimalZ.to_int_inj.
  assert (Hnonnil : forall k,
            Z.to_int k <> Decimal.Pos Decimal.Nil
            /\ Z.to_int k <> Decimal.Neg Decimal.Nil).
  { intros [|p|p]; cbn; split; try done; intros [= Hp];
      by apply Unsigned.to_uint_nonnil in Hp. }
  destruct (Hnonnil i) as [Hi1 Hi2], (Hnonnil j) as [Hj1 Hj2].
  pose proof (NilZero.isi _ Hi1 Hi2) as Hi.
  pose proof (NilZero.isi _ Hj1 Hj2) as Hj.
  rewrite H in Hi. congruence.
Qed.

Lemma map_inj_eq {A B : Type} (f : A -> B) (l1 l2 : list A) :
  (forall a b, f a = f b -> a = b) -> map f l1 = map f l2 -> l1 = l2.
Proof.
  intros Hf. revert l2.
  induction l1 as [|a l1 IH]; intros [|b l2] H; try done.
  injection H as Hab H. f_equal; [by apply Hf | by apply IH].
Qed.

Lemma concat_blocks_inj {A B : Type} (f : A -> list B) (k : nat)
    (l1 l2 : list A) :
  0 < k -> (forall a, length (f a) = k) ->
  (forall a b, f a = f b -> a = b) ->
  concat (map f l1) = concat (map f l2) -> l1 = l2.
Proof.
  intros Hk Hlen Hf. revert l2.
  induction l1 as [|a l1 IH]; intros [|b l2] H; cbn in H; try done.
  - apply (f_equal length) in H. rewrite length_app, Hlen in H. cbn in H. lia.
  - apply (f_equal length) in H. rewrite length_app, Hlen in H. cbn in H. lia.
  - apply app_inj_1 in H as [Hab H]; [| by rewrite !Hlen].
    f_equal; [by apply Hf | by apply IH].
Qed.

(** A field without a comma ends at the first comma. *)
Lemma comma_field_inj (a a' r r' : string) :
  Str.all (fun c => negb (Ascii.eqb c ",")) a = true ->
  Str.all (fun c => negb (Ascii.eqb c ",")) a' = true ->
  a +:+ String "," r = a' +:+ String "," r' -> a = a' /\ r = r'.
Proof.
  revert a'. induction a as [|c a IH]; intros [|c' a'] Ha Ha' H;
    simpl in *.
  - by injection H as ->.
  - injection H as <- _. by rewrite Ascii.eqb_refl in Ha'.
  - injection H as -> _. by rewrite Ascii.eqb_refl in Ha.
  - injection H as -> H.
    apply andb_prop in Ha as [_ Ha]. apply andb_prop in Ha' as [_ Ha'].
    destruct (IH _ Ha Ha' H) as [-> ->]. done.
Qed.

Lemma of_int_no_comma (i : Z) :
  Str.all (fun c => negb (Ascii.eqb c ",")) (Str.of_int i) = true.
Proof. by apply all_of_int. Qed.

Lemma fixed_record_inj (n n' : Z) : fixed_record n = fixed_record n' -> n = n'.
Proof. intros H. by apply of_int_inj, (append_inj_r _ _ _ H). Qed.

Lemma movable_record_inj (n n' : Z) :
  movable_record n = movable_record n' -> n = n'.
Proof. intros H. by apply of_int_inj, (append_inj_r _ _ _ H). Qed.

Lemma equation_lines_inj (t t' : Z * Z * Z) :
  equation_lines t = equation_lines t' -> t = t'.
Proof.
  destruct t as [[n b] m], t' as [[n' b'] m']. unfold equation_lines.
  intros [= H].
  apply comma_field_inj in H as [Hn H]; [| apply of_int_no_comma ..].
  injection H as H.
  apply comma_field_inj in H as [Hb H]; [| apply of_int_no_comma ..].
  injection H as H.
  apply comma_field_inj in H as [Hm _]; [| apply of_int_no_comma ..].
  by rewrite (of_int_inj _ _ Hn), (of_int_inj _ _ Hb), (of_int_inj _ _ Hm).
Qed.

Lemma fix_base_lines (nodes : list Z) :
  Str.readlines (fix_base nodes)
  = ("** Name: MY BOUNDARIES" +:+ Str.nl) :: ("*BOUNDARY" +:+ Str.nl)
    :: map fixed_record nodes.
Proof.
  rewrite fix_base_join.
  rewrite <- (append_assoc "*BOUNDARY"), <- (append_assoc "** Name: MY BOUNDARIES").
  rewrite (readlines_is_line ("** Name: MY BOUNDARIES" +:+ Str.nl)) by done.
  rewrite (readlines_is_line ("*BOUNDARY" +:+ Str.nl)) by done.
  do 2 f_equal. apply join_records_lines, is_line_fixed_record.
Qed.

Lemma constrain_dofs_lines (nodes : list Z) :
  Str.readlines (constrain_dofs nodes)
  = ("** MY BOUNDARIES" +:+ Str.nl) :: ("*BOUNDARY" +:+ Str.nl)
    :: map movable_record nodes.
Proof.
  rewrite constrain_dofs_join.
  rewrite <- (append_assoc "*BOUNDARY"), <- (append_assoc "** MY BOUNDARIES").
  rewrite (readlines_is_line ("** MY BOUNDARIES" +:+ Str.nl)) by done.
  rewrite (readlines_is_line ("*BOUNDARY" +:+ Str.nl)) by done.
  do 2 f_equal. apply join_records_lines, is_line_movable_record.
Qed.

(** X8: The fixed-base block determines its node list: two lists give the same
    text only when they are the same list, in the same order. *)
Theorem fix_base_inj (nodes nodes' : list Z) :
  fix_base nodes = fix_base nodes' <-> nodes = nodes'.
Proof.
  split; [| by intros ->].
  intros H. apply (f_equal Str.readlines) in H.
  rewrite !fix_base_lines in H. injection H as H.
  by apply (map_inj_eq fixed_record), H; apply fixed_record_inj.
Qed.

(** X9: The movable block determines its node list. *)
Theorem constrain_dofs_inj (nodes nodes' : list Z) :
  constrain_dofs nodes = constrain_dofs nodes' <-> nodes = nodes'.
Proof.
  split; [| by intros ->].
  intros H. apply (f_equal Str.readlines) in H.
  rewrite !constrain_dofs_lines in H. injection H as H.
  by apply (map_inj_eq movable_record), H; apply movable_record_inj.
Qed.

(** X10: The equation block determines the triples it was written for: two
    calls of [MPC] give the same text exactly when [zip] pairs their
    arguments into the same list of triples. *)
Theorem MPC_inj (nodes base_nodes movable_nodes nodes' base_nodes'
    movable_nodes' : list Z) :
  MPC nodes base_nodes movable_nodes = MPC nodes' base_nodes' movable_nodes'
  <-> zip3 nodes base_nodes movable_nodes
      = zip3 nodes' base_nodes' movable_nodes'.
Proof.
  split; [| intros H; by rewrite !MPC_join, H].
  intros H. apply (f_equal Str.readlines) in H. rewrite !readlines_MPC in H.
  apply (concat_blocks_inj equation_lines 4) in H; [done | lia | |].
  - by intros [[? ?] ?].
  - apply equation_lines_inj.
Qed.

(** X11: [MPC] returns the empty text exactly when one of its three lists is
    empty. *)
Theorem MPC_empty (nodes base_nodes movable_nodes : list Z) :
  MPC nodes base_nodes movable_nodes = EmptyString
  <-> nodes = [] \/ base_nodes = [] \/ movable_nodes = [].
Proof.
  rewrite MPC_join. split.
  - destruct nodes as [|n ?]; [by left |].
    destruct base_nodes as [|b ?]; [by right; left |].
    destruct movable_nodes as [|m ?]; [by right; right |].
    discriminate.
  - intros [-> | [-> | ->]]; [done | by destruct nodes |].
    by destruct nodes, base_nodes.
Qed.

(** ** The script as a whole *)

Section WholeScript.

Context {float : Type}.
Variable float_of_str : string -> option float.
Variable str_of_float : float -> string.

Implicit Types (tbl : gmap string (Point float)) (w v : World).

Local Abbreviation mesh_name := "Fitting_fea.inp".

(** The node block that [gen_nodes] writes for the identifiers [ids] and the
    points [pts]. *)
Local Abbreviation block ids pts :=
  ("** MY NODES" +:+ Str.nl +:+ "*Node" +:+ Str.nl
   +:+ Str.join (zip_with (node_record str_of_float) ids pts)).

Lemma loop_no_marker lines (m : gmap string (Point float)) w :
  existsb is_marker lines = false ->
  get_nodes_map_loop float_of_str lines false m w = (w, Return m).
Proof.
  intros H. rewrite <- (app_nil_r lines), loop_before_marker; [done |].
  apply Forall_forall. intros line Hline%list_elem_of_In.
  destruct (is_marker line) eqn:Hm; [| done].
  assert (existsb is_marker lines = true); [| congruence].
  apply existsb_exists. by exists line.
Qed.

(** A table with an entry was read after the marker was announced. *)
Lemma get_nodes_map_announced calculix_filename w w' tbl id p :
  get_nodes_map float_of_str calculix_filename w = (w', Return tbl) ->
  tbl !! id = Some p ->
  w' = announced w.
Proof.
  intros Hget Hid.
  destruct (files w !! calculix_filename) as [text|] eqn:Hfile.
  - rewrite (get_nodes_map_open _ _ _ _ Hfile) in Hget.
    pose proof (loop_effects float_of_str
                  (Str.readlines (Str.universal_newlines text)) false ∅ w)
      as Hw.
    rewrite Hget in Hw. cbn in Hw.
    destruct (existsb is_marker _) eqn:Hm; [done |].
    rewrite loop_no_marker in Hget by done.
    injection Hget as _ <-. by rewrite lookup_empty in Hid.
  - unfold get_nodes_map, bind, open_readlines in Hget.
    by rewrite Hfile in Hget.
Qed.

(** [gen_nodes] in any world that holds the same mesh file. *)
Lemma gen_nodes_run first_node_id query_nodes calculix_filename w w' tbl pts
    v :
  get_nodes_map float_of_str calculix_filename w = (w', Return tbl) ->
  Forall2 (fun q p => tbl !! Str.of_int q = Some p) query_nodes pts ->
  query_nodes <> [] ->
  files v !! calculix_filename = files w !! calculix_filename ->
  gen_nodes float_of_str str_of_float first_node_id query_nodes
    calculix_filename v
  = (announced v,
     Return (block (id_range first_node_id (length query_nodes)) pts,
             id_range first_node_id (length query_nodes))).
Proof.
  intros Hget Hpts Hne Hfiles.
  pose proof (get_nodes_map_world float_of_str calculix_filename w v Hfiles)
    as Hsame.
  rewrite Hget in Hsame. cbn in Hsame.
  destruct (get_nodes_map float_of_str calculix_filename v) as [v' r] eqn:Hv.
  cbn in Hsame. subst r.
  assert (v' = announced v) as ->.
  { destruct Hpts as [|q p ? ? Hq _]; [done |].
    by eapply get_nodes_map_announced. }
  unfold gen_nodes, bind.
  rewrite Hv, (gen_nodes_loop_present _ _ _ _ _ Hpts).
  by rewrite Z.add_0_r, !append_assoc.
Qed.

(** [gen_nodes] leaves the files alone, and whether it returns does not
    depend on the starting identifier or on anything in the world but the
    mesh file. *)
Lemma gen_nodes_files first_node_id query_nodes calculix_filename w :
  files (gen_nodes float_of_str str_of_float first_node_id query_nodes
           calculix_filename w).1
  = files w.
Proof.
  unfold gen_nodes, bind.
  pose proof (get_nodes_map_files float_of_str calculix_filename w) as Hf.
  destruct (get_nodes_map float_of_str calculix_filename w)
    as [w' [tbl | e]]; [| done].
  destruct (query_nodes_cases tbl query_nodes)
    as [[pts Hpts] | (present & pts & missing & rest & -> & Hp & Hm)].
  - by rewrite (gen_nodes_loop_present _ _ _ _ _ Hpts).
  - by rewrite (gen_nodes_loop_missing _ _ _ _ _ _ _ Hp Hm).
Qed.

Lemma mesh_kept (F : gmap string string) (name text : string) :
  name <> mesh_name -> <[name := text]> F !! mesh_name = F !! mesh_name.
Proof. intros H. by rewrite lookup_insert_ne. Qed.

(** A run of the script on a mesh file that holds every node of the node
    set. *)
Lemma main_run w w' tbl pts :
  get_nodes_map float_of_str mesh_name w = (w', Return tbl) ->
  Forall2 (fun q p => tbl !! Str.of_int q = Some p) nodes pts ->
  let base := id_range 5487 (length nodes) in
  let movable :=
    id_range (5487 + Z.of_nat (length nodes)) (length nodes) in
  main float_of_str str_of_float w
  = (mkWorld
       (<["equations.txt" := MPC nodes base movable]>
          (<["boundaries.txt" := fix_base base +:+ constrain_dofs movable]>
             (<["nodes.txt" := block base pts +:+ block movable pts]>
                (files w))))
       (stdout w ++ ["Found where the nodes are"; "Found where the nodes are"]),
     Return tt).
Proof.
  intros Hget Hpts base movable.
  assert (Hne : nodes <> []) by done.
  unfold main. unfold bind at 1. unfold open_w. cbv beta iota.
  unfold bind at 1.
  rewrite (gen_nodes_run 5487 nodes mesh_name w w' tbl pts _ Hget Hpts Hne)
    by (by apply mesh_kept).
  cbv beta iota. unfold bind at 1. unfold write at 1. cbv beta iota.
  unfold bind at 1. rewrite id_range_length.
  rewrite (gen_nodes_run _ nodes mesh_name w w' tbl pts _ Hget Hpts Hne).
  2: { cbn [files announced]. rewrite alter_insert_eq. by apply mesh_kept. }
  cbv beta iota. unfold bind, write, open_w. cbv beta iota.
  cbn [files stdout announced]. fold base movable.
  rewrite !alter_insert_eq. cbn [String.append].
  by rewrite <- app_assoc.
Qed.

(** The outcome of [gen_nodes] depends on the world through the mesh file
    only. *)
Lemma gen_nodes_world first_node_id query_nodes calculix_filename w v :
  files v !! calculix_filename = files w !! calculix_filename ->
  (gen_nodes float_of_str str_of_float first_node_id query_nodes
     calculix_filename v).2
  = (gen_nodes float_of_str str_of_float first_node_id query_nodes
       calculix_filename w).2.
Proof.
  intros Hfiles. unfold gen_nodes, bind.
  pose proof (get_nodes_map_world float_of_str calculix_filename w v Hfiles)
    as Hsame.
  destruct (get_nodes_map float_of_str calculix_filename w) as [w' r].
  destruct (get_nodes_map float_of_str calculix_filename v) as [v' r'].
  cbn in Hsame. subst r'. destruct r as [tbl | e]; [| done].
  destruct (query_nodes_cases tbl query_nodes)
    as [[pts Hpts] | (present & pts & missing & rest & -> & Hp & Hm)].
  - by rewrite !(gen_nodes_loop_present _ _ _ _ _ Hpts).
  - by rewrite !(gen_nodes_loop_missing _ _ _ _ _ _ _ Hp Hm).
Qed.

(** The two ways a run of the script can go: the mesh file gives a table
    that holds the whole node set, or the first call of [gen_nodes] raises
    and the script stops there. *)
Lemma main_cases w :
  (exists w' tbl pts,
     get_nodes_map float_of_str mesh_name w = (w', Return tbl)
     /\ Forall2 (fun q p => tbl !! Str.of_int q = Some p) nodes pts)
  \/ (exists v e,
        main float_of_str str_of_float w = (v, Raise e)
        /\ files v = <["nodes.txt" := EmptyString]> (files w)
        /\ (gen_nodes float_of_str str_of_float 5487 nodes mesh_name w).2
           = Raise e).
Proof.
  set (w0 := mkWorld (<["nodes.txt" := EmptyString]> (files w)) (stdout w)).
  assert (Hfiles : files w0 !! mesh_name = files w !! mesh_name)
    by by apply mesh_kept.
  assert (Hraise : forall v e,
            gen_nodes float_of_str str_of_float 5487 nodes mesh_name w0
            = (v, Raise e) ->
            exists v e,
              main float_of_str str_of_float w = (v, Raise e)
              /\ files v = <["nodes.txt" := EmptyString]> (files w)
              /\ (gen_nodes float_of_str str_of_float 5487 nodes mesh_name
                    w).2 = Raise e).
  { intros v e Hgen. exists v, e. split; [| split].
    - unfold main. unfold bind at 1. unfold open_w. cbv beta iota.
      unfold bind at 1. fold w0. by rewrite Hgen.
    - pose proof (gen_nodes_files 5487 nodes mesh_name w0) as Hf.
      by rewrite Hgen in Hf.
    - rewrite <- (gen_nodes_world 5487 nodes mesh_name w w0 Hfiles).
      by rewrite Hgen. }
  destruct (get_nodes_map float_of_str mesh_name w) as [w' [tbl | e]] eqn:Hget.
  - destruct (query_nodes_cases tbl nodes)
      as [[pts Hpts] | (present & pts & missing & rest & Hnodes & Hp & Hm)].
    + left. by exists w', tbl, pts.
    + right.
      pose proof (gen_nodes_world 5487 nodes mesh_name w w0 Hfiles) as Hsame.
      destruct (gen_nodes float_of_str str_of_float 5487 nodes mesh_name w0)
        as [v r] eqn:Hgen0.
      unfold gen_nodes at 1, bind in Hsame. rewrite Hget, Hnodes in Hsame.
      rewrite (gen_nodes_loop_missing _ _ _ _ _ _ _ Hp Hm) in Hsame.
      cbn in Hsame. subst r. by eapply Hraise.
  - right.
    pose proof (gen_nodes_world 5487 nodes mesh_name w w0 Hfiles) as Hsame.
    destruct (gen_nodes float_of_str str_of_float 5487 nodes mesh_name w0)
      as [v r] eqn:Hgen0.
    unfold gen_nodes at 1, bind in Hsame. rewrite Hget in Hsame.
    cbn in Hsame. subst r. by eapply Hraise.
Qed.

(** X12: When the mesh file gives a table that holds every node of the node set,
    the script returns, prints its message twice, and leaves three files:
    [nodes.txt] with the block of the base nodes 5487, 5488, ... followed by
    the block of the movable nodes, numbered from where the base nodes end,
    both at the coordinates of the node set; [boundaries.txt] with the
    fixed-base block of the base nodes followed by the movable block of the
    movable nodes; [equations.txt] with one equation per node of the set,
    its base node and its movable node.  No other file changes. *)
Theorem main_writes w w' tbl :
  get_nodes_map float_of_str mesh_name w = (w', Return tbl) ->
  (forall q, q ∈ nodes -> is_Some (tbl !! Str.of_int q)) ->
  exists pts,
    Forall2 (fun q p => tbl !! Str.of_int q = Some p) nodes pts
    /\ let base := map (fun i => (5487 + Z.of_nat i)%Z) (seq 0 205) in
       let movable := map (fun i => (5692 + Z.of_nat i)%Z) (seq 0 205) in
       main float_of_str str_of_float w
       = (mkWorld
            (<["equations.txt" := MPC nodes base movable]>
               (<["boundaries.txt" :=
                    fix_base base +:+ constrain_dofs movable]>
                  (<["nodes.txt" := block base pts +:+ block movable pts]>
                     (files w))))
            (stdout w ++ ["Found where the nodes are";
                          "Found where the nodes are"]),
          Return tt).
Proof.
  intros Hget Hall. destruct (all_present_points _ _ Hall) as [pts Hpts].
  exists pts. split; [done |]. exact (main_run w w' tbl pts Hget Hpts).
Qed.


Lemma three_files_again (F : gmap string string) (a b c : string) :
  <["equations.txt" := c]>
    (<["boundaries.txt" := b]>
       (<["nodes.txt" := a]>
          (<["equations.txt" := c]>
             (<["boundaries.txt" := b]> (<["nodes.txt" := a]> F)))))
  = <["equations.txt" := c]>
      (<["boundaries.txt" := b]> (<["nodes.txt" := a]> F)).
Proof.
  apply map_eq. intros name. rewrite !lookup_insert. by repeat case_decide.
Qed.

(** X14: Running the script again after a run that returned gives the same
    three files: the second run returns as well and leaves every file as the
    first run left it. *)
Theorem main_again w w1 :
  main float_of_str str_of_float w = (w1, Return tt) ->
  exists w2,
    main float_of_str str_of_float w1 = (w2, Return tt)
    /\ files w2 = files w1.
Proof.
  intros Hmain.
  destruct (main_cases w) as [(w' & tbl & pts & Hget & Hpts) | (v & e & H)].
  2: { destruct H as (Hmain' & _). by rewrite Hmain' in Hmain. }
  rewrite (main_run w w' tbl pts Hget Hpts) in Hmain.
  apply (f_equal fst) in Hmain. cbn [fst] in Hmain.
  assert (Hfiles : files w1 !! mesh_name = files w !! mesh_name).
  { rewrite <- Hmain. cbn [files]. by rewrite !mesh_kept. }
  pose proof (get_nodes_map_world float_of_str mesh_name w w1 Hfiles) as Hsame.
  rewrite Hget in Hsame. cbn [snd] in Hsame.
  destruct (get_nodes_map float_of_str mesh_name w1) as [v' r] eqn:Hv.
  cbn [snd] in Hsame. subst r.
  eexists. split; [exact (main_run w1 v' tbl pts Hv Hpts) |].
  cbn [files]. rewrite <- Hmain at 1 2. cbn [files].
  apply three_files_again.
Qed.

End WholeScript.

(** ** Reading a node block back *)

Lemma all_impl (P Q : ascii -> bool) (s : string) :
  (forall c, P c = true -> Q c = true) ->
  Str.all P s = true -> Str.all Q s = true.
Proof.
  intros HPQ. induction s as [|c s IH]; simpl; [done |].
  intros [Hc Hs]%andb_prop. by rewrite (HPQ _ Hc), IH.
Qed.

Lemma universal_newlines_id (s : string) :
  Str.all (fun c => negb (Ascii.eqb c Str.CR)) s = true ->
  Str.universal_newlines s = s.
Proof.
  induction s as [|c s IH]; [done |].
  cbn [Str.all Str.universal_newlines]. intros [Hc Hs]%andb_prop.
  apply negb_true_iff in Hc. rewrite Hc. by rewrite IH.
Qed.

Lemma one_line_all (s : string) :
  Str.all (fun c => negb (Ascii.eqb c Str.LF)) s = true ->
  Str.one_line s = true.
Proof. induction s as [|c s IH]; simpl; [done |]. by intros [-> ?%IH]%andb_prop. Qed.

Lemma contains_no_asterisk (s : string) :
  Str.all (fun c => negb (Ascii.eqb c "*")) s = true ->
  Str.contains "**" s = false.
Proof.
  induction s as [|c s IH]; [done |].
  cbn [Str.all]. intros [Hc Hs]%andb_prop. rewrite contains_cons, IH by done.
  apply negb_true_iff, Ascii.eqb_neq in Hc. cbn [String.prefix].
  by destruct (ascii_dec "*" c) as [<- |].
Qed.

(** [rstrip] and [lstrip] on a text that begins and ends with characters
    other than white space. *)

Lemma rstrip_spaces (ws : string) :
  Str.all Str.isspace ws = true -> Str.rstrip ws = EmptyString.
Proof.
  induction ws as [|c ws IH]; [done |].
  cbn [Str.all Str.rstrip]. intros [Hc Hs]%andb_prop. by rewrite IH, Hc.
Qed.

Lemma rstrip_cons_keep (c : ascii) (s : string) :
  Str.rstrip s <> EmptyString ->
  Str.rstrip (String c s) = String c (Str.rstrip s).
Proof. cbn [Str.rstrip]. by destruct (Str.rstrip s). Qed.

Lemma rstrip_append_keep (a t : string) :
  Str.rstrip t <> EmptyString -> Str.rstrip (a +:+ t) = a +:+ Str.rstrip t.
Proof.
  intros Ht. induction a as [|c a IH]; [done |].
  cbn [String.append]. rewrite rstrip_cons_keep; [by rewrite IH |].
  rewrite IH. by destruct a.
Qed.

Lemma rstrip_field (d ws : string) :
  d <> EmptyString ->
  Str.all (fun c => negb (Str.isspace c)) d = true ->
  Str.all Str.isspace ws = true ->
  Str.rstrip (d +:+ ws) = d.
Proof.
  intros Hd Hall Hws. induction d as [|c d IH]; [done |].
  cbn [Str.all] in Hall. apply andb_prop in Hall as [Hc Hall].
  apply negb_true_iff in Hc. cbn [String.append Str.rstrip].
  destruct d as [|c' d].
  - cbn [String.append]. by rewrite (rstrip_spaces _ Hws), Hc.
  - by rewrite IH.
Qed.

Lemma string_of_list_snoc (l : list ascii) (c : ascii) (a : string) :
  string_of_list_ascii (l ++ [c]) +:+ a
  = string_of_list_ascii l +:+ String c a.
Proof. induction l as [|d l IH]; simpl; [done | by rewrite IH]. Qed.

(** [split] on fields that hold no comma. *)

Lemma split_go_last (cur : list ascii) (d : string) :
  Str.all (fun c => negb (Ascii.eqb c ",")) d = true ->
  Str.split_go ", " 0 cur d = [string_of_list_ascii (rev cur) +:+ d].
Proof.
  revert cur. induction d as [|c d IH]; intros cur Hd.
  - cbn. by rewrite append_empty_r.
  - cbn [Str.all] in Hd. apply andb_prop in Hd as [Hc Hd].
    apply negb_true_iff, Ascii.eqb_neq in Hc.
    cbn [Str.split_go String.prefix].
    destruct (ascii_dec "," c) as [<- |]; [done |].
    rewrite IH by done. cbn [rev]. by rewrite string_of_list_snoc.
Qed.

Lemma split_go_field (cur : list ascii) (a rest : string) :
  Str.all (fun c => negb (Ascii.eqb c ",")) a = true ->
  Str.split_go ", " 0 cur (a +:+ ", " +:+ rest)
  = (string_of_list_ascii (rev cur) +:+ a) :: Str.split_go ", " 0 [] rest.
Proof.
  revert cur. induction a as [|c a IH]; intros cur Ha.
  - cbn. rewrite append_empty_r. by destruct rest.
  - cbn [Str.all] in Ha. apply andb_prop in Ha as [Hc Ha].
    apply negb_true_iff, Ascii.eqb_neq in Hc.
    cbn [String.append Str.split_go String.prefix].
    destruct (ascii_dec "," c) as [<- |]; [done |].
    rewrite IH by done. cbn [rev]. by rewrite string_of_list_snoc.
Qed.

Lemma split_four (a b c d : string) :
  Str.all (fun c => negb (Ascii.eqb c ",")) a = true ->
  Str.all (fun c => negb (Ascii.eqb c ",")) b = true ->
  Str.all (fun c => negb (Ascii.eqb c ",")) c = true ->
  Str.all (fun c => negb (Ascii.eqb c ",")) d = true ->
  Str.split ", " (a +:+ ", " +:+ b +:+ ", " +:+ c +:+ ", " +:+ d)
  = [a; b; c; d].
Proof.
  intros Ha Hb Hc Hd. unfold Str.split.
  rewrite !split_go_field, split_go_last by done. done.
Qed.

Lemma all_join (P : ascii -> bool) (l : list string) :
  Forall (fun s => Str.all P s = true) l -> Str.all P (Str.join l) = true.
Proof.
  induction 1 as [|s l Hs _ IH]; [done |].
  cbn [Str.join]. by rewrite all_append, Hs, IH.
Qed.

Lemma universal_newlines_append (a b : string) :
  Str.all (fun c => negb (Ascii.eqb c Str.CR)) a = true ->
  Str.universal_newlines (a +:+ b) = a +:+ Str.universal_newlines b.
Proof.
  induction a as [|c a IH]; [done |].
  cbn [Str.all String.append Str.universal_newlines].
  intros [Hc Ha]%andb_prop. apply negb_true_iff in Hc.
  by rewrite Hc, IH.
Qed.

Lemma of_int_field (i : Z) : Str.all field_char (Str.of_int i) = true.
Proof. by apply all_of_int. Qed.

Lemma of_int_nonempty (i : Z) : Str.of_int i <> EmptyString.
Proof.
  unfold Str.of_int, NilZero.string_of_int, NilZero.string_of_uint.
  destruct (Z.to_int i) as [d | d]; by destruct d.
Qed.

Lemma field_char_no_comma c :
  field_char c = true -> negb (Ascii.eqb c ",") = true.
Proof. unfold field_char. by intros [[? _]%andb_prop _]%andb_prop. Qed.

Lemma field_char_no_asterisk c :
  field_char c = true -> negb (Ascii.eqb c "*") = true.
Proof. unfold field_char. by intros [[_ ?]%andb_prop _]%andb_prop. Qed.

Lemma field_char_no_space c :
  field_char c = true -> negb (Str.isspace c) = true.
Proof. unfold field_char. by intros [_ ?]%andb_prop. Qed.

Lemma field_char_no_LF c :
  field_char c = true -> negb (Ascii.eqb c Str.LF) = true.
Proof.
  intros H%field_char_no_space. destruct (Ascii.eqb_spec c Str.LF) as [-> |];
    done.
Qed.

Lemma field_char_no_CR c :
  field_char c = true -> negb (Ascii.eqb c Str.CR) = true.
Proof.
  intros H%field_char_no_space. destruct (Ascii.eqb_spec c Str.CR) as [-> |];
    done.
Qed.

Section ReadBack.

Context {float : Type}.
Variable float_of_str : string -> option float.
Variable str_of_float : float -> string.

Local Abbreviation record := (node_record str_of_float).
Local Abbreviation ok := (readable_point float_of_str str_of_float).
Local Abbreviation parse := (parse_record float_of_str).

Implicit Types (tbl : gmap string (Point float)) (w v : World)
  (p : Point float).

(** The fields of a record line, without the line terminator. *)
Local Abbreviation fields id p :=
  (Str.of_int id +:+ ", " +:+ str_of_float (x p) +:+ ", "
   +:+ str_of_float (y p) +:+ ", " +:+ str_of_float (z p)).

Lemma record_fields id p : record id p = fields id p +:+ Str.nl.
Proof. unfold node_record. by rewrite !append_assoc. Qed.

Lemma all_record (P : ascii -> bool) id p :
  (forall c, field_char c = true -> P c = true) ->
  P " "%char = true -> P ","%char = true ->
  ok p ->
  Str.all P (fields id p) = true.
Proof.
  intros HP Hsp Hco ((_ & _ & Hx) & (_ & _ & Hy) & (_ & _ & Hz)).
  rewrite !all_append.
  rewrite (all_impl _ _ _ HP (of_int_field id)).
  rewrite (all_impl _ _ _ HP Hx), (all_impl _ _ _ HP Hy).
  rewrite (all_impl _ _ _ HP Hz). cbn. by rewrite Hsp, Hco.
Qed.

Lemma strip_record id p : ok p -> Str.strip (record id p) = fields id p.
Proof.
  intros Hp. pose proof Hp as (_ & _ & (_ & Hne & Hz)).
  unfold Str.strip.
  assert (Hl : Str.lstrip (record id p) = record id p).
  { unfold node_record.
    pose proof (of_int_field id) as Hid. pose proof (of_int_nonempty id).
    destruct (Str.of_int id) as [|c s]; [done |].
    cbn [Str.all] in Hid. apply andb_prop in Hid as [Hc _].
    apply field_char_no_space, negb_true_iff in Hc.
    cbn [String.append Str.lstrip]. by rewrite Hc. }
  rewrite Hl. unfold node_record.
  assert (Hr : Str.rstrip (str_of_float (z p) +:+ Str.nl)
               = str_of_float (z p)).
  { apply rstrip_field; [done | | done].
    by apply (all_impl _ _ _ field_char_no_space). }
  replace (Str.of_int id +:+ ", " +:+ str_of_float (x p) +:+ ", "
           +:+ str_of_float (y p) +:+ ", " +:+ str_of_float (z p) +:+ Str.nl)
    with ((Str.of_int id +:+ ", " +:+ str_of_float (x p) +:+ ", "
           +:+ str_of_float (y p) +:+ ", ")
          +:+ (str_of_float (z p) +:+ Str.nl))
    by (by rewrite !append_assoc).
  rewrite rstrip_append_keep by (by rewrite Hr).
  by rewrite Hr, !append_assoc.
Qed.

Lemma parse_record_line id p : ok p -> parse (record id p) = Some (Str.of_int id, p).
Proof.
  intros Hp. unfold parse_record. rewrite (strip_record _ _ Hp).
  destruct Hp as ((Hx & _ & Hfx) & (Hy & _ & Hfy) & (Hz & _ & Hfz)).
  rewrite split_four.
  - rewrite Hx, Hy, Hz. by destruct p.
  - apply (all_impl _ _ _ field_char_no_comma), of_int_field.
  - by apply (all_impl _ _ _ field_char_no_comma).
  - by apply (all_impl _ _ _ field_char_no_comma).
  - by apply (all_impl _ _ _ field_char_no_comma).
Qed.

Lemma is_comment_record id p : ok p -> is_comment (record id p) = false.
Proof.
  intros Hp. unfold is_comment. rewrite (strip_record _ _ Hp).
  apply contains_no_asterisk.
  by apply all_record; [apply field_char_no_asterisk | | |].
Qed.

Lemma is_line_record id p : ok p -> Str.is_line (record id p) = true.
Proof.
  intros Hp. rewrite record_fields, is_line_append; [done |].
  apply one_line_all. by apply all_record; [apply field_char_no_LF | | |].
Qed.

Lemma no_CR_record id p :
  ok p ->
  Str.all (fun c => negb (Ascii.eqb c Str.CR)) (record id p) = true.
Proof.
  intros Hp. rewrite record_fields, all_append.
  rewrite all_record; [done | apply field_char_no_CR | done | done | done].
Qed.

(** The records of a block, as lines and as table entries. *)
Lemma block_records (ids : list Z) (pts : list (Point float)) :
  Forall ok pts ->
  Forall (fun l => Str.is_line l = true) (zip_with record ids pts)
  /\ Forall (fun l => Str.all (fun c => negb (Ascii.eqb c Str.CR)) l = true)
       (zip_with record ids pts)
  /\ Forall2 (fun line e => is_comment line = false /\ parse line = Some e)
       (zip_with record ids pts)
       (zip_with (fun id p => (Str.of_int id, p)) ids pts).
Proof.
  intros Hpts. revert ids.
  induction Hpts as [|p pts Hp _ IH]; intros [|id ids]; cbn [zip_with];
    try (by repeat constructor).
  destruct (IH ids) as (H1 & H2 & H3). split; [| split]; constructor;
    try done.
  - by apply is_line_record.
  - by apply no_CR_record.
  - split; [by apply is_comment_record | by apply parse_record_line].
Qed.

(** A file that holds a node block, followed by nothing or by text whose
    first line is a comment-marker line, is read as the table of the
    records of the block. *)
Lemma read_back (ids : list Z) (pts : list (Point float)) g v rest :
  Forall ok pts ->
  files v !! g
  = Some (("** MY NODES" +:+ Str.nl +:+ "*Node" +:+ Str.nl
           +:+ Str.join (zip_with record ids pts)) +:+ rest) ->
  match Str.readlines (Str.universal_newlines rest) with
  | [] => True
  | line :: _ => is_comment line = true
  end ->
  get_nodes_map float_of_str g v
  = (announced v,
     Return (store_all (zip_with (fun id p => (Str.of_int id, p)) ids pts)
               ∅)).
Proof.
  intros Hpts Hfile Hrest.
  destruct (block_records ids pts Hpts) as (Hlines & Hcr & Hrecs).
  rewrite (get_nodes_map_open _ _ _ _ Hfile).
  rewrite universal_newlines_append.
  2: { rewrite !all_append, all_join by done. done. }
  replace (("** MY NODES" +:+ Str.nl +:+ "*Node" +:+ Str.nl
            +:+ Str.join (zip_with record ids pts))
           +:+ Str.universal_newlines rest)
    with (("** MY NODES" +:+ Str.nl)
          +:+ ("*Node" +:+ Str.nl)
          +:+ (Str.join (zip_with record ids pts)
               +:+ Str.universal_newlines rest))
    by (by rewrite !append_assoc).
  rewrite (readlines_is_line ("** MY NODES" +:+ Str.nl)) by done.
  rewrite (readlines_is_line ("*Node" +:+ Str.nl)) by done.
  rewrite readlines_join by done.
  rewrite loop_skip, loop_marker by done.
  rewrite (loop_records _ _ _ _ _ _ Hrecs).
  destruct (Str.readlines (Str.universal_newlines rest)) as [|line lines];
    [done |].
  by rewrite loop_comment.
Qed.

Lemma entries_keys (ids : list Z) (pts : list (Point float)) :
  (zip_with (fun id p => (Str.of_int id, p)) ids pts).*1
  = Str.of_int <$> take (length pts) ids.
Proof.
  revert pts. induction ids as [|id ids IH]; intros [|p pts]; cbn; try done.
  by rewrite IH.
Qed.

Lemma entries_lookup (ids : list Z) (pts : list (Point float)) i id p :
  NoDup ids -> ids !! i = Some id -> pts !! i = Some p ->
  store_all (zip_with (fun id p => (Str.of_int id, p)) ids pts) ∅
    !! Str.of_int id
  = Some p.
Proof.
  intros Hnd Hid Hp.
  assert (He : zip_with (fun id p => (Str.of_int id, p)) ids pts !! i
               = Some (Str.of_int id, p))
    by by rewrite lookup_zip_with, Hid, Hp.
  rewrite <- (take_drop_middle _ _ _ He). apply store_all_last.
  rewrite zip_with_drop, entries_keys.
  intros (id' & Heq & Hin)%list_elem_of_fmap. apply of_int_inj in Heq as <-.
  apply elem_of_take in Hin as (j & Hj & _). rewrite lookup_drop in Hj.
  pose proof (NoDup_lookup _ _ _ _ Hnd Hid Hj). lia.
Qed.

Lemma entries_absent (ids : list Z) (pts : list (Point float)) id :
  id ∉ ids ->
  store_all (zip_with (fun id p => (Str.of_int id, p)) ids pts) ∅
    !! Str.of_int id
  = None.
Proof.
  intros Hid. rewrite store_all_absent; [done |]. rewrite entries_keys.
  intros (id' & Heq & Hin)%list_elem_of_fmap. apply of_int_inj in Heq as <-.
  apply Hid. by apply elem_of_take in Hin as (j & ?%list_elem_of_lookup_2 & _).
Qed.

Lemma entries_size (ids : list Z) (pts : list (Point float)) :
  NoDup ids -> length ids = length pts ->
  size (store_all (zip_with (fun id p => (Str.of_int id, p)) ids pts) ∅)
  = length ids.
Proof.
  intros Hnd Hlen. rewrite store_all_size, map_size_empty.
  - rewrite length_zip_with. lia.
  - rewrite entries_keys, <- Hlen, firstn_all.
    apply NoDup_fmap_2; [| done]. intros a b. apply of_int_inj.
  - done.
Qed.

Lemma readable_points tbl (l : list Z) :
  (forall q, q ∈ l -> exists p, tbl !! Str.of_int q = Some p /\ ok p) ->
  exists pts,
    Forall2 (fun q p => tbl !! Str.of_int q = Some p) l pts
    /\ Forall ok pts.
Proof.
  induction l as [|q l IH]; intros Hall.
  - exists []. by split; constructor.
  - destruct (Hall q) as (p & Hq & Hp); [left |].
    destruct IH as (pts & H2 & Hok); [intros q' Hq'; apply Hall; by right |].
    exists (p :: pts). by split; constructor.
Qed.

(** X7: What [gen_nodes] writes, [get_nodes_map] reads: when every query node
    has an entry whose coordinates are written as clean fields that [float]
    reads back, a file that holds the text returned by [gen_nodes] is read
    as a table of exactly the new identifiers, the identifier at position
    [i] having the coordinates of the query node at position [i]. *)
Theorem gen_nodes_read_back first_node_id query_nodes calculix_filename w w'
    tbl :
  get_nodes_map float_of_str calculix_filename w = (w', Return tbl) ->
  (forall q, q ∈ query_nodes ->
             exists p, tbl !! Str.of_int q = Some p /\ ok p) ->
  exists text,
    gen_nodes float_of_str str_of_float first_node_id query_nodes
      calculix_filename w
    = (w', Return (text,
                   map (fun i => (first_node_id + Z.of_nat i)%Z)
                     (seq 0 (length query_nodes))))
    /\ forall g v,
         files v !! g = Some text ->
         exists tbl',
           get_nodes_map float_of_str g v = (announced v, Return tbl')
           /\ size tbl' = length query_nodes
           /\ forall i q,
                query_nodes !! i = Some q ->
                tbl' !! Str.of_int (first_node_id + Z.of_nat i)
                = tbl !! Str.of_int q.
Proof.
  intros Hget Hall.
  destruct (readable_points _ _ Hall) as (pts & Hpts & Hok).
  pose proof (Forall2_length _ _ _ Hpts) as Hlen.
  set (ids := id_range first_node_id (length query_nodes)).
  exists ("** MY NODES" +:+ Str.nl +:+ "*Node" +:+ Str.nl
          +:+ Str.join (zip_with record ids pts)).
  split.
  - unfold gen_nodes, bind.
    rewrite Hget, (gen_nodes_loop_present _ _ _ _ _ Hpts).
    by rewrite Z.add_0_r, !append_assoc.
  - intros g v Hfile. eexists. split; [| split].
    + apply (read_back ids pts g v EmptyString Hok); [| done].
      by rewrite append_empty_r.
    + rewrite entries_size; subst ids.
      * apply id_range_length.
      * apply id_range_NoDup.
      * by rewrite id_range_length.
    + intros i q Hq.
      destruct (Forall2_lookup_l _ _ _ _ _ Hpts Hq) as (p & Hp & ->).
      apply (entries_lookup ids pts i); [apply id_range_NoDup | | done].
      apply id_range_lookup. by apply lookup_lt_Some in Hq.
Qed.

(** X15: After a run of the script on a mesh whose coordinates are written as
    clean fields that [float] reads back, [nodes.txt] read by
    [get_nodes_map] gives the 205 base nodes only, each at the coordinates
    of its node of the node set: the block of the movable nodes starts with
    a comment line, which ends the node section. *)
Theorem main_nodes_read_back w w' tbl :
  get_nodes_map float_of_str "Fitting_fea.inp" w = (w', Return tbl) ->
  (forall q, q ∈ nodes -> exists p, tbl !! Str.of_int q = Some p /\ ok p) ->
  exists w1 tbl',
    main float_of_str str_of_float w = (w1, Return tt)
    /\ get_nodes_map float_of_str "nodes.txt" w1 = (announced w1, Return tbl')
    /\ size tbl' = 205
    /\ (forall i q,
          nodes !! i = Some q ->
          tbl' !! Str.of_int (5487 + Z.of_nat i) = tbl !! Str.of_int q)
    /\ (forall i, i < 205 -> tbl' !! Str.of_int (5692 + Z.of_nat i) = None).
Proof.
  intros Hget Hall.
  destruct (readable_points _ _ Hall) as (pts & Hpts & Hok).
  pose proof (Forall2_length _ _ _ Hpts) as Hlen.
  pose proof (main_run float_of_str str_of_float w w' tbl pts Hget Hpts)
    as Hmain.
  cbv zeta in Hmain.
  set (base := id_range 5487 (length nodes)) in *.
  set (movable := id_range (5487 + Z.of_nat (length nodes)) (length nodes))
    in *.
  eexists _, _. split; [exact Hmain |]. split; [| split; [| split]].
  - apply (read_back base pts "nodes.txt" _
             ("** MY NODES" +:+ Str.nl +:+ "*Node" +:+ Str.nl
              +:+ Str.join (zip_with record movable pts)) Hok).
    + cbn [files]. rewrite lookup_insert_ne, lookup_insert_ne by done.
      by rewrite lookup_insert_eq.
    + replace ("** MY NODES" +:+ Str.nl +:+ "*Node" +:+ Str.nl
               +:+ Str.join (zip_with record movable pts))
        with (("** MY NODES" +:+ Str.nl)
              +:+ ("*Node" +:+ Str.nl
                   +:+ Str.join (zip_with record movable pts)))
        by (by rewrite !append_assoc).
      rewrite universal_newlines_append by done.
      by rewrite readlines_is_line.
  - rewrite entries_size; subst base.
    + by rewrite id_range_length.
    + apply id_range_NoDup.
    + by rewrite id_range_length.
  - intros i q Hq.
    destruct (Forall2_lookup_l _ _ _ _ _ Hpts Hq) as (p & Hp & ->).
    apply (entries_lookup base pts i); [apply id_range_NoDup | | done].
    apply id_range_lookup. by apply lookup_lt_Some in Hq.
  - intros i Hi. apply entries_absent. subst base.
    intros [_ H]%id_range_elem_of. change (length nodes) with 205 in H. lia.
Qed.

End ReadBack.

(** ** The further properties on the sample files *)

Lemma get_nodes_map_unterminated_witness :
  get_nodes_map Dec.float_of_str Sample.name (Sample.world Sample.open_ended)
  = (announced (Sample.world Sample.open_ended), Return Sample.table).
Proof.
  destruct (get_nodes_map_unterminated Dec.float_of_str Sample.name
              Sample.open_ended (Sample.world Sample.open_ended)
              [] ("*Node" +:+ Str.nl)
              ["42, 1.0, 2.0, 3.0" +:+ Str.nl; "7, 0.5, 0.25, 10.0"]
              [("42", Sample.p42); ("7", Sample.p7)])
    as (Hget & _).
  - reflexivity.
  - reflexivity.
  - constructor.
  - reflexivity.
  - repeat constructor.
  - exact Hget.
Defined.


Lemma gen_nodes_returns_witness :
  exists tbl,
    get_nodes_map Dec.float_of_str Sample.name (Sample.world Sample.mesh)
    = (announced (Sample.world Sample.mesh), Return tbl)
    /\ NoDup [100; 101; 102]%Z.
Proof.
  destruct (gen_nodes_returns Dec.float_of_str Dec.str_of_float 100
              [42; 7; 42]%Z Sample.name (Sample.world Sample.mesh)
              (announced (Sample.world Sample.mesh))
              ("** MY NODES" +:+ Str.nl +:+ "*Node" +:+ Str.nl
                 +:+ "100, 1.0, 2.0, 3.0" +:+ Str.nl
                 +:+ "101, 0.5, 0.25, 10.0" +:+ Str.nl
                 +:+ "102, 1.0, 2.0, 3.0" +:+ Str.nl)
              [100; 101; 102]%Z)
    as (tbl & Hget & _ & _ & _ & Hnd).
  - reflexivity.
  - by exists tbl.
Defined.

Lemma gen_nodes_read_back_witness :
  exists text tbl',
    gen_nodes Dec.float_of_str Dec.str_of_float 100 [42; 7]%Z Sample.name
      (Sample.world Sample.mesh)
    = (announced (Sample.world Sample.mesh), Return (text, [100; 101]%Z))
    /\ get_nodes_map Dec.float_of_str "nodes.txt"
         (mkWorld {[ "nodes.txt" := text ]} [])
       = (announced (mkWorld {[ "nodes.txt" := text ]} []), Return tbl')
    /\ size tbl' = 2
    /\ tbl' !! "101" = Some Sample.p7.
Proof.
  destruct (gen_nodes_read_back Dec.float_of_str Dec.str_of_float 100
              [42; 7]%Z Sample.name (Sample.world Sample.mesh)
              (announced (Sample.world Sample.mesh)) Sample.table)
    as (text & Hgen & Hread).
  - reflexivity.
  - intros q Hq. apply list_elem_of_In in Hq.
    destruct Hq as [<- | [<- | []]].
    + exists Sample.p42. by repeat split.
    + exists Sample.p7. by repeat split.
  - destruct (Hread "nodes.txt" (mkWorld {[ "nodes.txt" := text ]} []))
      as (tbl' & Hget & Hsize & Hlook); [apply lookup_singleton_eq |].
    exists text, tbl'. split; [exact Hgen |]. split; [exact Hget |].
    split; [exact Hsize |]. exact (Hlook 1 7%Z eq_refl).
Defined.

Lemma full_table_read :
  get_nodes_map Dec.float_of_str "Fitting_fea.inp" (Sample.world Sample.full)
  = (announced (Sample.world Sample.full), Return Sample.full_table).
Proof.
  assert (Hok : readable_point Dec.float_of_str Dec.str_of_float Sample.p42)
    by (repeat split; (reflexivity || discriminate)).
  set (line := fun n => node_record Dec.str_of_float n Sample.p42).
  assert (Hfull : Sample.full
                  = ("*Node" +:+ Str.nl)
                    +:+ (Str.join (map line nodes)
                         +:+ ("** Elements" +:+ Str.nl))).
  { unfold Sample.full. by rewrite !append_assoc. }
  assert (Hrecs : Forall2 (fun l e => is_comment l = false
                                      /\ parse_record Dec.float_of_str l
                                         = Some e)
                    (map line nodes)
                    (map (fun n => (Str.of_int n, Sample.p42)) nodes)).
  { apply Forall2_fmap, Forall_Forall2_diag, Forall_forall. intros n _.
    split; [by apply (is_comment_record Dec.float_of_str)
           | by apply parse_record_line]. }
  rewrite (get_nodes_map_open _ _ Sample.full) by done.
  rewrite Hfull, universal_newlines_id.
  2: { rewrite !all_append, all_join; [done |].
       apply Forall_fmap, Forall_forall. intros n _.
       by apply (no_CR_record Dec.float_of_str). }
  rewrite (readlines_is_line ("*Node" +:+ Str.nl)) by done.
  rewrite readlines_join.
  2: { apply Forall_fmap, Forall_forall. intros n _.
       by apply (is_line_record Dec.float_of_str). }
  change (Str.readlines ("** Elements" +:+ Str.nl))
    with ["** Elements" +:+ Str.nl].
  rewrite loop_marker by done.
  by rewrite (loop_records _ _ _ _ _ _ Hrecs), loop_comment.
Qed.

Lemma store_all_constant {float : Type} (entries : list (string * Point float))
    (m : gmap string (Point float)) (p : Point float) (k : string) :
  Forall (fun e => e.2 = p) entries ->
  k ∈ entries.*1 ->
  store_all entries m !! k = Some p.
Proof.
  intros Hall. revert m.
  induction Hall as [|[k' p'] entries Hp _ IH]; intros m Hk.
  - by apply elem_of_nil in Hk.
  - rewrite store_all_cons.
    destruct (decide (k ∈ entries.*1)) as [Hin | Hout]; [by apply IH |].
    cbn in Hk. apply elem_of_cons in Hk as [-> | Hin]; [| done].
    rewrite store_all_absent by done. cbn in *. by rewrite lookup_insert_eq, Hp.
Qed.

Lemma full_table_nodes (q : Z) :
  q ∈ nodes -> Sample.full_table !! Str.of_int q = Some Sample.p42.
Proof.
  intros Hq. unfold Sample.full_table. apply store_all_constant.
  - apply Forall_forall. by intros e (n & -> & _)%list_elem_of_fmap.
  - rewrite <- list_fmap_compose. apply list_elem_of_fmap. by exists q.
Qed.

Lemma main_writes_witness :
  (main Dec.float_of_str Dec.str_of_float (Sample.world Sample.full)).2
  = Return tt.
Proof.
  destruct (main_writes Dec.float_of_str Dec.str_of_float
              (Sample.world Sample.full)
              (announced (Sample.world Sample.full)) Sample.full_table)
    as (pts & _ & Hmain).
  - exact full_table_read.
  - intros q Hq. rewrite (full_table_nodes q Hq). eexists. reflexivity.
  - cbv zeta in Hmain. rewrite Hmain. reflexivity.
Defined.


Lemma main_again_witness :
  exists w1 w2,
    main Dec.float_of_str Dec.str_of_float (Sample.world Sample.full)
    = (w1, Return tt)
    /\ main Dec.float_of_str Dec.str_of_float w1 = (w2, Return tt)
    /\ files w2 = files w1.
Proof.
  destruct (main Dec.float_of_str Dec.str_of_float (Sample.world Sample.full))
    as [w1 r] eqn:Hmain.
  assert (r = Return tt) as ->.
  { change r with (w1, r).2. rewrite <- Hmain. vm_compute. reflexivity. }
  destruct (main_again Dec.float_of_str Dec.str_of_float
              (Sample.world Sample.full) w1 Hmain) as (w2 & H2 & Hfiles).
  exists w1, w2. split; [reflexivity | split; [exact H2 | exact Hfiles]].
Defined.

Lemma main_nodes_read_back_witness :
  exists w1 tbl',
    main Dec.float_of_str Dec.str_of_float (Sample.world Sample.full)
    = (w1, Return tt)
    /\ get_nodes_map Dec.float_of_str "nodes.txt" w1
       = (announced w1, Return tbl')
    /\ tbl' !! "5487" = Some Sample.p42
    /\ tbl' !! "5692" = None.
Proof.
  destruct (main_nodes_read_back Dec.float_of_str Dec.str_of_float
              (Sample.world Sample.full)
              (announced (Sample.world Sample.full)) Sample.full_table)
    as (w1 & tbl' & Hmain & Hget & _ & Hbase & Hmov).
  - exact full_table_read.
  - intros q Hq. exists Sample.p42.
    split; [exact (full_table_nodes q Hq) |].
    repeat split; (reflexivity || discriminate).
  - exists w1, tbl'. split; [exact Hmain |]. split; [exact Hget |]. split.
    + transitivity (Sample.full_table !! Str.of_int 70).
      * exact (Hbase 0 70%Z eq_refl).
      * apply full_table_nodes. left.
    + exact (Hmov 0 ltac:(lia)).
Defined.

(** ** When extraction raises *)

Section ExtractionRaises.

Context {float : Type}.
Variable float_of_str : string -> option float.

Local Abbreviation loop := (get_nodes_map_loop float_of_str).
Local Abbreviation parse := (parse_record float_of_str).

Implicit Types (m : gmap string (Point float)) (w : World).

Lemma loop_found_raise lines m w w' e :
  loop lines true m w = (w', Raise e) ->
  w' = w /\ e = ValueError
  /\ exists recs entries bad post,
       lines = recs ++ bad :: post
       /\ Forall2 (fun line e => is_comment line = false
                                 /\ parse line = Some e) recs entries
       /\ is_comment bad = false
       /\ parse bad = None.
Proof.
  revert m. induction lines as [|line lines IH]; intros m Hloop; [done |].
  destruct (is_comment line) eqn:Hc; [by rewrite loop_comment in Hloop |].
  destruct (parse line) as [[id p]|] eqn:Hp.
  - rewrite (loop_record _ _ _ _ _ id p) in Hloop by done.
    destruct (IH _ Hloop)
      as (-> & -> & recs & entries & bad & post & -> & Hrecs & Hbad).
    split; [done |]. split; [done |].
    exists (line :: recs), ((id, p) :: entries), bad, post.
    split; [done |]. split; [by constructor | done].
  - rewrite loop_malformed in Hloop by done. injection Hloop as <- <-.
    split; [done |]. split; [done |].
    exists [], [], line, lines. split; [done |]. split; [constructor | done].
Qed.

Lemma loop_search_raise lines m w w' e :
  loop lines false m w = (w', Raise e) ->
  w' = announced w /\ e = ValueError
  /\ exists pre marker recs entries bad post,
       lines = pre ++ marker :: recs ++ bad :: post
       /\ Forall (fun line => is_marker line = false) pre
       /\ is_marker marker = true
       /\ Forall2 (fun line e => is_comment line = false
                                 /\ parse line = Some e) recs entries
       /\ is_comment bad = false
       /\ parse bad = None.
Proof.
  induction lines as [|line lines IH]; intros Hloop; [done |].
  destruct (is_marker line) eqn:Hm.
  - rewrite loop_marker in Hloop by done.
    destruct (loop_found_raise _ _ _ _ _ Hloop)
      as (-> & -> & recs & entries & bad & post & -> & Hrecs & Hbad).
    split; [done |]. split; [done |].
    exists [], line, recs, entries, bad, post.
    split; [done |]. split; [constructor | done].
  - rewrite loop_skip in Hloop by done.
    destruct (IH Hloop)
      as (-> & -> & pre & marker & recs & entries & bad & post & -> & Hpre
          & Hrest).
    split; [done |]. split; [done |].
    exists (line :: pre), marker, recs, entries, bad, post.
    split; [done |]. split; [by constructor | done].
Qed.

(** X4: When [get_nodes_map] raises on a file that was read as the text
    [text]: exactly when the node section, read from the first marker line
    on, reaches, before any comment-marker line, a line whose stripped text
    does not split at comma-space into exactly four fields of which [float]
    accepts the last three; the exception is then [ValueError] and the
    message was printed.  Lines after a comment-marker line never make it
    raise. *)
Theorem get_nodes_map_raises calculix_filename text w w' e :
  files w !! calculix_filename = Some text ->
  get_nodes_map float_of_str calculix_filename w = (w', Raise e)
  <-> exists pre marker recs entries bad post,
        Str.readlines (Str.universal_newlines text)
        = pre ++ marker :: recs ++ bad :: post
        /\ Forall (fun line => is_marker line = false) pre
        /\ is_marker marker = true
        /\ Forall2 (fun line e => is_comment line = false
                                  /\ parse line = Some e) recs entries
        /\ Str.contains "**" (Str.strip bad) = false
        /\ (forall id sx sy sz,
              Str.split ", " (Str.strip bad) = [id; sx; sy; sz] ->
              float_of_str sx = None \/ float_of_str sy = None
              \/ float_of_str sz = None)
        /\ w' = announced w /\ e = ValueError.
Proof.
  intros Hfile. rewrite (get_nodes_map_open _ _ _ _ Hfile). split.
  - intros Hget.
    destruct (loop_search_raise _ _ _ _ _ Hget)
      as (-> & -> & pre & marker & recs & entries & bad & post & Hlines
          & Hpre & Hm & Hrecs & Hc & Hp).
    exists pre, marker, recs, entries, bad, post.
    repeat (split; [done |]). split; [| done].
    by apply parse_record_None.
  - intros (pre & marker & recs & entries & bad & post
            & Hlines & Hpre & Hm & Hrecs & Hc & Hp & -> & ->).
    apply parse_record_None in Hp. rewrite Hlines.
    rewrite loop_before_marker, loop_marker by done.
    by rewrite (loop_records _ _ _ _ _ _ Hrecs), loop_malformed.
Qed.

End ExtractionRaises.

Lemma get_nodes_map_raises_witness :
  exists pre marker recs bad post,
    Str.readlines (Str.universal_newlines Sample.malformed)
    = pre ++ marker :: recs ++ bad :: post
    /\ is_marker marker = true
    /\ Str.contains "**" (Str.strip bad) = false
    /\ forall id sx sy sz,
         Str.split ", " (Str.strip bad) = [id; sx; sy; sz] ->
         Dec.float_of_str sx = None \/ Dec.float_of_str sy = None
         \/ Dec.float_of_str sz = None.
Proof.
  destruct (proj1 (get_nodes_map_raises Dec.float_of_str Sample.name
                     Sample.malformed (Sample.world Sample.malformed)
                     (announced (Sample.world Sample.malformed)) ValueError
                     eq_refl) eq_refl)
    as (pre & marker & recs & entries & bad & post
        & Hlines & _ & Hm & _ & Hc & Hp & _).
  by exists pre, marker, recs, bad, post.
Defined.
